(** * The PYME rule server: task state machine and rule registry

    A shallow embedding of [PYME/cluster/ruleserver.py]: the class
    [IntegerIDRule] (one numpy record array of task rows plus running
    counters) and the class [RuleServer] (an ordered dictionary of rules, the
    periodic sweep, the advertisement cache and the hand-in endpoint).

    Conventions of the embedding.
    - Python integers are [Z].  The [uint8] columns [status] and [nRetries]
      hold values in [0, 256); a store into them wraps modulo 256.
    - Times ([time.time()], the [expiry] column and the rule expiry) and costs
      are numbers, embedded as [Z]; the rounding of the [f4] columns is outside
      the model.  Every call reads the clock once: it receives [now].
    - A method is a function from the object to the object afterwards and
      either the returned value or the raised exception; the object that comes
      with an exception is the one the method had built when it raised.
    - Locks are not modelled: every method body runs on its own. *)

From Stdlib Require Import ZArith List String Bool Lia QArith DecimalString.
From stdpp Require Import base list strings gmap.

Local Open Scope Z_scope.

(** ** Exceptions and method results *)

Inductive exn := IndexError | ValueError | RuntimeError | KeyError (key : string).

Inductive result (A : Type) :=
| Ret (a : A)
| Exc (e : exn).
Arguments Ret {A} a.
Arguments Exc {A} e.

(** ** numpy on one-dimensional arrays *)

(** [a[i]] for an integer index: negative indices count from the end, an
    index outside [-n, n) raises [IndexError]. *)
Definition py_index (n : nat) (i : Z) : option nat :=
  if (0 <=? i) && (i <? Z.of_nat n) then Some (Z.to_nat i)
  else if (- Z.of_nat n <=? i) && (i <? 0) then Some (Z.to_nat (i + Z.of_nat n))
  else None.

(** [a[ids]] for a list of integer indices. *)
Definition np_take {A} (a : list A) (ids : list Z) : option (list A) :=
  mapM (fun i => k ← py_index (length a) i; a !! k) ids.

(** [a[mask]] for a boolean mask; the mask must be as long as the array. *)
Fixpoint select {A} (mask : list bool) (a : list A) : list A :=
  match mask, a with
  | b :: mask', x :: a' => if b then x :: select mask' a' else select mask' a'
  | _, _ => []
  end.

Definition bool_index {A} (a : list A) (mask : list bool) : option (list A) :=
  if decide (length mask = length a) then Some (select mask a) else None.

(** [a[ids] = vals], one column at a time: the writes happen in the order of
    [ids], so a repeated index keeps the last value. *)
Definition put {A V} (f : V -> A -> A) (a : list A) (ids : list Z) (vals : list V)
  : list A :=
  fold_left (fun acc iv =>
               match py_index (length acc) iv.1 with
               | Some k => alter (f iv.2) k acc
               | None => acc
               end) (zip ids vals) a.

(** [mask.sum()] and [np.where(mask)[0]] for the mask [p] over the rows. *)
Fixpoint count_where {A} (p : A -> bool) (a : list A) : Z :=
  match a with
  | [] => 0
  | x :: a' => (if p x then 1 else 0) + count_where p a'
  end.

Fixpoint where_from {A} (p : A -> bool) (k : Z) (a : list A) : list Z :=
  match a with
  | [] => []
  | x :: a' => if p x then k :: where_from p (k + 1) a' else where_from p (k + 1) a'
  end.

Definition np_where {A} (p : A -> bool) (a : list A) : list Z := where_from p 0 a.

(** A value stored into a [uint8] column. *)
Definition uint8 (z : Z) : Z := z mod 256.

(** [str(z)] and ['%06d' % z]. *)
Definition str_nat (n : nat) : string := NilZero.string_of_uint (Nat.to_uint n).

Definition str_int (z : Z) : string :=
  if z <? 0 then ("-" ++ str_nat (Z.to_nat (- z)))%string else str_nat (Z.to_nat z).

Fixpoint zeros (n : nat) : string :=
  match n with
  | O => EmptyString
  | S n' => ("0" ++ zeros n')%string
  end.

Definition zfill (width : nat) (s : string) : string :=
  (zeros (width - String.length s) ++ s)%string.

Definition fmt_06d (z : Z) : string :=
  if z <? 0 then ("-" ++ zfill 5 (str_nat (Z.to_nat (- z))))%string
  else zfill 6 (str_nat (Z.to_nat z)).

(** ** Task rows *)

Definition STATUS_UNAVAILABLE : Z := 0.
Definition STATUS_AVAILABLE : Z := 1.
Definition STATUS_ASSIGNED : Z := 2.
Definition STATUS_COMPLETE : Z := 3.
Definition STATUS_FAILED : Z := 4.

(** [TASK_INFO_DTYPE]: one row of the task array. *)
Module TaskInfo.
Record t := mk { status : Z; nRetries : Z; expiry : Z; cost : Z }.

Definition zero : t := mk 0 0 0 0.

Definition set_status (v : Z) (r : t) : t := mk v (nRetries r) (expiry r) (cost r).
Definition set_nRetries (v : Z) (r : t) : t := mk (status r) v (expiry r) (cost r).
Definition set_expiry (v : Z) (r : t) : t := mk (status r) (nRetries r) v (cost r).
Definition set_cost (v : Z) (r : t) : t := mk (status r) (nRetries r) (expiry r) v.
End TaskInfo.

Abbreviation Task := TaskInfo.t.

(** [np.zeros(n, TASK_INFO_DTYPE)]; called with [n >= 0] only. *)
Definition np_zeros (n : Z) : list Task := replicate (Z.to_nat n) TaskInfo.zero.

Definition has_status (s : Z) (t : Task) : bool := TaskInfo.status t =? s.

(** ** Messages *)

(** An advertisement, the value of [IntegerIDRule.advert]. *)
Module Advert.
Record t := mk {
  ruleID : string;
  taskTemplate : string;
  availableTaskIDs : list Z;
  inputsByTask : option (list (Z * string))
}.
End Advert.

(** A bid, [{"ruleID", "taskIDs", "costs"}]. *)
Module Bid.
Record t := mk { ruleID : string; taskIDs : list Z; costs : list Z }.
End Bid.

(** The answer to a bid, [{"ruleID", "taskIDs", "template"}]. *)
Module Award.
Record t := mk { ruleID : string; taskIDs : list Z; template : string }.
End Award.

(** One hand-in entry, [{"ruleID", "taskIDs", "status"}]. *)
Module Handin.
Record t := mk { ruleID : string; taskIDs : list Z; status : list Z }.
End Handin.

(** The [on_completion] dictionary of a rule: only the template is required,
    a missing key is [None]. *)
#[warnings="-register-all"]
Inductive FollowOn :=
| mkFollowOn (template : option string) (max_tasks : option Z)
             (rule_timeout : option Z) (on_completion : option FollowOn).

Definition fo_template (d : FollowOn) := let (a, _, _, _) := d in a.
Definition fo_max_tasks (d : FollowOn) := let (_, a, _, _) := d in a.
Definition fo_rule_timeout (d : FollowOn) := let (_, _, a, _) := d in a.
Definition fo_on_completion (d : FollowOn) := let (_, _, _, a) := d in a.

(** ** IntegerIDRule *)

Module IntegerIDRule.

Record t := mk {
  ruleID : string;
  _inputs_by_task : option (gmap Z string);
  _template : string;
  _task_info : list Task;
  _n_retries : Z;
  _timeout : Z;
  _rule_timeout : Z;
  _cached_advert : option Advert.t;
  _active : bool;
  nTotal : Z;
  nAssigned : Z;
  nAvailable : Z;
  nCompleted : Z;
  nFailed : Z;
  _n_max : Z;
  _datasource_complete : bool;
  on_completion : option FollowOn;
  avCost : Q;
  expiry : Z
}.

Section Setters.
Variable r : t.

Definition set_task_info v :=
  mk (ruleID r) (_inputs_by_task r) (_template r) v (_n_retries r) (_timeout r)
     (_rule_timeout r) (_cached_advert r) (_active r) (nTotal r) (nAssigned r)
     (nAvailable r) (nCompleted r) (nFailed r) (_n_max r) (_datasource_complete r)
     (on_completion r) (avCost r) (expiry r).
Definition set_cached_advert v :=
  mk (ruleID r) (_inputs_by_task r) (_template r) (_task_info r) (_n_retries r)
     (_timeout r) (_rule_timeout r) v (_active r) (nTotal r) (nAssigned r)
     (nAvailable r) (nCompleted r) (nFailed r) (_n_max r) (_datasource_complete r)
     (on_completion r) (avCost r) (expiry r).
Definition set_active v :=
  mk (ruleID r) (_inputs_by_task r) (_template r) (_task_info r) (_n_retries r)
     (_timeout r) (_rule_timeout r) (_cached_advert r) v (nTotal r) (nAssigned r)
     (nAvailable r) (nCompleted r) (nFailed r) (_n_max r) (_datasource_complete r)
     (on_completion r) (avCost r) (expiry r).
Definition set_nTotal v :=
  mk (ruleID r) (_inputs_by_task r) (_template r) (_task_info r) (_n_retries r)
     (_timeout r) (_rule_timeout r) (_cached_advert r) (_active r) v (nAssigned r)
     (nAvailable r) (nCompleted r) (nFailed r) (_n_max r) (_datasource_complete r)
     (on_completion r) (avCost r) (expiry r).
Definition set_nAssigned v :=
  mk (ruleID r) (_inputs_by_task r) (_template r) (_task_info r) (_n_retries r)
     (_timeout r) (_rule_timeout r) (_cached_advert r) (_active r) (nTotal r) v
     (nAvailable r) (nCompleted r) (nFailed r) (_n_max r) (_datasource_complete r)
     (on_completion r) (avCost r) (expiry r).
Definition set_nAvailable v :=
  mk (ruleID r) (_inputs_by_task r) (_template r) (_task_info r) (_n_retries r)
     (_timeout r) (_rule_timeout r) (_cached_advert r) (_active r) (nTotal r)
     (nAssigned r) v (nCompleted r) (nFailed r) (_n_max r) (_datasource_complete r)
     (on_completion r) (avCost r) (expiry r).
Definition set_nCompleted v :=
  mk (ruleID r) (_inputs_by_task r) (_template r) (_task_info r) (_n_retries r)
     (_timeout r) (_rule_timeout r) (_cached_advert r) (_active r) (nTotal r)
     (nAssigned r) (nAvailable r) v (nFailed r) (_n_max r) (_datasource_complete r)
     (on_completion r) (avCost r) (expiry r).
Definition set_nFailed v :=
  mk (ruleID r) (_inputs_by_task r) (_template r) (_task_info r) (_n_retries r)
     (_timeout r) (_rule_timeout r) (_cached_advert r) (_active r) (nTotal r)
     (nAssigned r) (nAvailable r) (nCompleted r) v (_n_max r) (_datasource_complete r)
     (on_completion r) (avCost r) (expiry r).
Definition set_n_max v :=
  mk (ruleID r) (_inputs_by_task r) (_template r) (_task_info r) (_n_retries r)
     (_timeout r) (_rule_timeout r) (_cached_advert r) (_active r) (nTotal r)
     (nAssigned r) (nAvailable r) (nCompleted r) (nFailed r) v (_datasource_complete r)
     (on_completion r) (avCost r) (expiry r).
Definition set_datasource_complete v :=
  mk (ruleID r) (_inputs_by_task r) (_template r) (_task_info r) (_n_retries r)
     (_timeout r) (_rule_timeout r) (_cached_advert r) (_active r) (nTotal r)
     (nAssigned r) (nAvailable r) (nCompleted r) (nFailed r) (_n_max r) v
     (on_completion r) (avCost r) (expiry r).
Definition set_avCost v :=
  mk (ruleID r) (_inputs_by_task r) (_template r) (_task_info r) (_n_retries r)
     (_timeout r) (_rule_timeout r) (_cached_advert r) (_active r) (nTotal r)
     (nAssigned r) (nAvailable r) (nCompleted r) (nFailed r) (_n_max r)
     (_datasource_complete r) (on_completion r) v (expiry r).
Definition set_expiry v :=
  mk (ruleID r) (_inputs_by_task r) (_template r) (_task_info r) (_n_retries r)
     (_timeout r) (_rule_timeout r) (_cached_advert r) (_active r) (nTotal r)
     (nAssigned r) (nAvailable r) (nCompleted r) (nFailed r) (_n_max r)
     (_datasource_complete r) (on_completion r) (avCost r) v.
End Setters.

(** [__init__]; [retries] is the value of the configuration entry
    ['ruleserver-retries'] (3 when it is not set).  [np.zeros] raises
    [ValueError] for a negative [max_task_ID]. *)
Definition init (retries : Z) (ruleID : string) (task_template : string)
           (inputs_by_task : option (gmap Z string)) (max_task_ID : Z)
           (task_timeout rule_timeout : Z) (on_completion : option FollowOn)
           (datasource_complete : bool) (now : Z) : result t :=
  if max_task_ID <? 0 then Exc ValueError
  else Ret (mk ruleID inputs_by_task task_template (np_zeros max_task_ID)
               retries task_timeout rule_timeout None true
               0 0 0 0 0 max_task_ID datasource_complete on_completion
               0%Q (now + rule_timeout)).

Definition _update_nums (r : t) : t :=
  let r := set_nAvailable r (count_where (has_status STATUS_AVAILABLE) (_task_info r)) in
  set_nAssigned r (count_where (has_status STATUS_ASSIGNED) (_task_info r)).

(** [np.mean] of the costs of the rows with [status > STATUS_AVAILABLE];
    the mean of no rows is nan, replaced by 0. *)
Definition mean (l : list Z) : Q :=
  match l with
  | [] => 0%Q
  | _ => Qdiv (inject_Z (fold_right Z.add 0 l)) (inject_Z (Z.of_nat (length l)))
  end.

Definition _update_cost (r : t) : t :=
  set_avCost r
    (mean (map TaskInfo.cost
               (List.filter (fun x => TaskInfo.status x >? STATUS_AVAILABLE)
                            (_task_info r)))).

Definition size (r : t) : Z := Z.of_nat (length (_task_info r)).

Definition mark_datasource_complete (r : t) (n_max : Z) : t * result unit :=
  let r := _update_nums r in
  if nAssigned r >? n_max then (r, Exc ValueError)
  else
    let r := if n_max >? size r
             then set_task_info r (_task_info r ++ np_zeros (n_max - size r))
             else r in
    let r := set_n_max r n_max in
    (set_datasource_complete r true, Ret tt).

(** [self._task_info['status'][start:end] = v] for [0 <= start] and
    [0 <= end]: the rows [k] with [start <= k < end]. *)
Definition put_slice_status (a : list Task) (start end_ : Z) (v : Z) : list Task :=
  imap (fun k x => if (start <=? Z.of_nat k) && (Z.of_nat k <? end_)
                   then TaskInfo.set_status v x else x) a.

Definition make_range_available (r : t) (start end_ : Z) (now : Z) : t * result unit :=
  if (start <? 0) || (start >? size r) || (end_ <? 0) || (end_ >? size r)
  then (r, Exc RuntimeError)
  else
    let r := set_task_info r (put_slice_status (_task_info r) start end_ STATUS_AVAILABLE) in
    let r := set_nTotal r (count_where (fun x => TaskInfo.status x >? 0) (_task_info r)) in
    let r := _update_nums r in
    let r := set_expiry r (now + _rule_timeout r) in
    (set_cached_advert r None, Ret tt).

Definition bid (r : t) (b : Bid.t) (now : Z) : t * result Award.t :=
  if negb (_active r) then (r, Ret (Award.mk (Bid.ruleID b) [] ""))
  else
    let taskIDs := Bid.taskIDs b in
    let costs := Bid.costs b in
    match np_take (map TaskInfo.status (_task_info r)) taskIDs with
    | None => (r, Exc IndexError)
    | Some st =>
        let successful_bid_mask := map (fun s => s =? STATUS_AVAILABLE) st in
        let successful_bid_ids := select successful_bid_mask taskIDs in
        let r := set_task_info r
                   (put TaskInfo.set_status (_task_info r) successful_bid_ids
                        (replicate (length successful_bid_ids) STATUS_ASSIGNED)) in
        match bool_index costs successful_bid_mask with
        | None => (r, Exc IndexError)
        | Some cs =>
            let r := set_task_info r
                       (put TaskInfo.set_cost (_task_info r) successful_bid_ids cs) in
            let r := set_task_info r
                       (put TaskInfo.set_expiry (_task_info r) successful_bid_ids
                            (replicate (length successful_bid_ids) (now + _timeout r))) in
            let nTasks := Z.of_nat (length successful_bid_ids) in
            let r := set_nAvailable r (nAvailable r - nTasks) in
            let r := set_nAssigned r (nAssigned r + nTasks) in
            let r := _update_cost r in
            let r := set_expiry r (now + _rule_timeout r) in
            let r := set_cached_advert r None in
            (r, Ret (Award.mk (Bid.ruleID b) successful_bid_ids (_template r)))
        end
    end.

(** The right-hand side of [a[ids] = status]: as many values as indices, or
    one value for all of them; any other shape raises [ValueError]. *)
Definition broadcast {A} (vals : list A) (n : nat) : option (list A) :=
  if decide (length vals = n) then Some vals
  else match vals with
       | [v] => Some (replicate n v)
       | _ => None
       end.

(** Both the index check and the shape check of the assignment precede its
    first write; the index check is taken to come first. *)
Definition mark_complete (r : t) (info : Handin.t) (now : Z) : t * result unit :=
  let taskIDs := Handin.taskIDs info in
  let status := map uint8 (Handin.status info) in
  match np_take (_task_info r) taskIDs with
  | None => (r, Exc IndexError)
  | Some _ =>
      match broadcast status (length taskIDs) with
      | None => (r, Exc ValueError)
      | Some vals =>
          let r := set_task_info r (put TaskInfo.set_status (_task_info r) taskIDs vals) in
          let r := set_nCompleted r
                     (nCompleted r + count_where (fun s => s =? STATUS_COMPLETE) status) in
          let r := set_nFailed r
                     (nFailed r + count_where (fun s => s =? STATUS_FAILED) status) in
          let nTasks := Z.of_nat (length taskIDs) in
          let r := set_nAssigned r (nAssigned r - nTasks) in
          (set_expiry r (now + _rule_timeout r), Ret tt)
      end
  end.

Definition first_missing (inputs : gmap Z string) (ids : list Z) : string :=
  match List.find (fun i => bool_decide (inputs !! i = None)) ids with
  | Some i => str_int i
  | None => ""
  end.

(** The property [advert].  A missing key of [_inputs_by_task] raises
    [KeyError] after the advertisement without inputs has been cached. *)
Definition advert (r : t) : t * result (option Advert.t) :=
  if negb (_active r) then (r, Ret None)
  else
    match _cached_advert r with
    | Some a => (r, Ret (Some a))
    | None =>
        let availableTasks := np_where (has_status STATUS_AVAILABLE) (_task_info r) in
        match availableTasks with
        | [] => (set_cached_advert r None, Ret None)
        | _ =>
            let a := Advert.mk (ruleID r) (_template r) availableTasks None in
            let r := set_cached_advert r (Some a) in
            match _inputs_by_task r with
            | None => (r, Ret (Some a))
            | Some inputs =>
                match mapM (fun taskID => v ← inputs !! taskID; Some (taskID, v))
                           availableTasks with
                | None => (r, Exc (KeyError (first_missing inputs availableTasks)))
                | Some ins =>
                    let a := Advert.mk (ruleID r) (_template r) availableTasks (Some ins) in
                    (set_cached_advert r (Some a), Ret (Some a))
                end
            end
        end
    end.

Definition expired (r : t) (now : Z) : bool :=
  (nAvailable r =? 0) && (nAssigned r =? 0) && (now >? expiry r).

Definition finished (r : t) : bool :=
  _datasource_complete r && (nCompleted r >=? _n_max r).

Definition inactivate (r : t) : t := set_active r false.

Definition timed_out (now : Z) (x : Task) : bool :=
  (TaskInfo.status x =? STATUS_ASSIGNED) && (TaskInfo.expiry x <? now).

(** A timed-out row after [status[timed_out] = STATUS_AVAILABLE] and
    [nRetries[timed_out] += 1]. *)
Definition requeue (now : Z) (x : Task) : Task :=
  if timed_out now x
  then TaskInfo.set_nRetries (uint8 (TaskInfo.nRetries x + 1))
         (TaskInfo.set_status STATUS_AVAILABLE x)
  else x.

Definition poll_timeouts (r : t) (now : Z) : t :=
  let nTimedOut := count_where (timed_out now) (_task_info r) in
  let r :=
    if nTimedOut >? 0 then
      let r := set_task_info r (map (requeue now) (_task_info r)) in
      let r := set_nAssigned r (nAssigned r - nTimedOut) in
      let r := set_nAvailable r (nAvailable r + nTimedOut) in
      let retry_failed := fun x => TaskInfo.nRetries x >? _n_retries r in
      let n_failed := count_where retry_failed (_task_info r) in
      let r := set_task_info r
                 (map (fun x => if retry_failed x
                                then TaskInfo.set_status STATUS_FAILED x else x)
                      (_task_info r)) in
      set_nAvailable r (nAvailable r - n_failed)
    else r in
  set_cached_advert r None.

End IntegerIDRule.

Abbreviation Rule := IntegerIDRule.t.

(** ** collections.OrderedDict with string keys *)

Module OrderedDict.
Section Dict.
Context {V : Type}.

Definition t := list (string * V).

Definition keys (d : t) : list string := map fst d.
Definition values (d : t) : list V := map snd d.

(** [d[k]] *)
Fixpoint get (d : t) (k : string) : option V :=
  match d with
  | [] => None
  | (k', v) :: d' => if String.eqb k' k then Some v else get d' k
  end.

(** [d[k] = v]: a known key keeps its position, a new key goes last. *)
Fixpoint set (d : t) (k : string) (v : V) : t :=
  match d with
  | [] => [(k, v)]
  | (k', v') :: d' => if String.eqb k' k then (k', v) :: d' else (k', v') :: set d' k v
  end.

(** [d.pop(k)] for a key of [d] *)
Fixpoint remove (d : t) (k : string) : t :=
  match d with
  | [] => []
  | (k', v') :: d' => if String.eqb k' k then d' else (k', v') :: remove d' k
  end.
End Dict.
Arguments t : clear implicits.
End OrderedDict.

(** ** RuleServer *)

(** The JSON answer of the hand-in endpoint. *)
Module Response.
Record t := mk { ok : bool; error : option string }.
End Response.

(** The body of [add_integer_id_rule]. *)
Module RuleInfo.
Record t := mk {
  template : string;
  inputsByTask : option (gmap Z string);
  on_completion : option FollowOn
}.
End RuleInfo.

Module RuleServer.

Definition MAX_ADVERTISEMENTS : Z := 5 * 10 * 50 * 12.

(** The registry, the advertisement cache (the list that [json.dumps]
    serialises) and the rule counter.  The status cache of [get_queues] is
    kept apart, in [StatusCache]. *)
Record t := mk {
  _rules : OrderedDict.t Rule;
  _cached_advert : option (list Advert.t);
  _cached_advert_expiry : Z;
  _rule_n : Z
}.

Definition init : t := mk [] None 0 0.

Definition set_rules (s : t) v := mk v (_cached_advert s) (_cached_advert_expiry s) (_rule_n s).
Definition set_cached_advert (s : t) v := mk (_rules s) v (_cached_advert_expiry s) (_rule_n s).
Definition set_cached_advert_expiry (s : t) v := mk (_rules s) (_cached_advert s) v (_rule_n s).
Definition set_rule_n (s : t) v := mk (_rules s) (_cached_advert s) (_cached_advert_expiry s) v.

(** [str(e)] for the [KeyError] of a missing string key. *)
Definition repr (k : string) : string := ("'" ++ k ++ "'")%string.

Section Server.
(** The configuration entry ['ruleserver-retries']. *)
Variable retries : Z.

(** One turn of the [for] loop of [_poll_rules] for the key [qn];
    [uuid] is the value of [uuid.uuid4().hex] should the turn need one. *)
Definition poll_rule (s : t) (qn : string) (now : Z) (uuid : string) : t * result unit :=
  match OrderedDict.get (_rules s) qn with
  | None => (s, Exc (KeyError (repr qn)))
  | Some r =>
      let r := IntegerIDRule.poll_timeouts r now in
      let s := set_rules s (OrderedDict.set (_rules s) qn r) in
      if IntegerIDRule.finished r then
        let s := set_rules s (OrderedDict.remove (_rules s) qn) in
        match IntegerIDRule.on_completion r with
        | None => (s, Ret tt)
        | Some follow_on =>
            match fo_template follow_on with
            | None => (s, Exc (KeyError (repr "template")))
            | Some template =>
                let n_tasks := default 1 (fo_max_tasks follow_on) in
                let timeout := default 3600 (fo_rule_timeout follow_on) in
                let ruleID := (fmt_06d (_rule_n s) ++ "-" ++ uuid)%string in
                match IntegerIDRule.init retries ruleID template None n_tasks 600 timeout
                                         (fo_on_completion follow_on) true now with
                | Exc e => (s, Exc e)
                | Ret rule =>
                    match IntegerIDRule.make_range_available rule 0 n_tasks now with
                    | (_, Exc e) => (s, Exc e)
                    | (rule, Ret _) =>
                        let s := set_rules s (OrderedDict.set (_rules s) ruleID rule) in
                        (set_rule_n s (_rule_n s + 1), Ret tt)
                    end
                end
            end
        end
      else if IntegerIDRule.expired r now then
        (set_rules s (OrderedDict.remove (_rules s) qn), Ret tt)
      else (s, Ret tt)
  end.

(** One pass of the [while] loop of [_poll_rules] over the snapshot
    [list(self._rules.keys())]; an exception ends the sweep thread. *)
Fixpoint poll_keys (s : t) (qns : list string) (now : Z) (uuids : nat -> string)
  : t * result unit :=
  match qns with
  | [] => (s, Ret tt)
  | qn :: qns' =>
      match poll_rule s qn now (uuids O) with
      | (s, Ret _) => poll_keys s qns' now (fun k => uuids (S k))
      | (s, Exc e) => (s, Exc e)
      end
  end.

Definition _poll_rules_pass (s : t) (now : Z) (uuids : nat -> string) : t * result unit :=
  poll_keys s (OrderedDict.keys (_rules s)) now uuids.

(** The [while] loop of [task_advertisements] from rule [ruleN] on, over
    the rest of [rules]; reading [advert] fills the cache of the rule. *)
Fixpoint collect_adverts (rules : OrderedDict.t Rule) (nTasks : Z)
  : OrderedDict.t Rule * result (list Advert.t) :=
  match rules with
  | [] => ([], Ret [])
  | (k, r) :: rest =>
      if nTasks <? MAX_ADVERTISEMENTS then
        match IntegerIDRule.advert r with
        | (r, Exc e) => ((k, r) :: rest, Exc e)
        | (r, Ret None) =>
            let (rest, res) := collect_adverts rest nTasks in
            ((k, r) :: rest, res)
        | (r, Ret (Some advert)) =>
            let (rest, res) :=
              collect_adverts rest
                (nTasks + Z.of_nat (length (Advert.availableTaskIDs advert))) in
            ((k, r) :: rest,
             match res with
             | Ret adverts => Ret (advert :: adverts)
             | Exc e => Exc e
             end)
        end
      else (rules, Ret [])
  end.

Definition task_advertisements (s : t) (now : Z) : t * result (option (list Advert.t)) :=
  if now >? _cached_advert_expiry s then
    match collect_adverts (_rules s) 0 with
    | (rules, Exc e) => (set_rules s rules, Exc e)
    | (rules, Ret adverts) =>
        let s := set_rules s rules in
        let s := set_cached_advert s (Some adverts) in
        let s := set_cached_advert_expiry s (now + 1) in
        (s, Ret (_cached_advert s))
    end
  else (s, Ret (_cached_advert s)).

Fixpoint bid_loop (s : t) (bids : list Bid.t) (now : Z) : t * result (list Award.t) :=
  match bids with
  | [] => (s, Ret [])
  | bid :: bids' =>
      match OrderedDict.get (_rules s) (Bid.ruleID bid) with
      | None => (s, Exc (KeyError (repr (Bid.ruleID bid))))
      | Some rule =>
          match IntegerIDRule.bid rule bid now with
          | (rule, Exc e) =>
              (set_rules s (OrderedDict.set (_rules s) (Bid.ruleID bid) rule), Exc e)
          | (rule, Ret award) =>
              let s := set_rules s (OrderedDict.set (_rules s) (Bid.ruleID bid) rule) in
              match bid_loop s bids' now with
              | (s, Ret awards) => (s, Ret (award :: awards))
              | (s, Exc e) => (s, Exc e)
              end
          end
      end
  end.

Definition bid_on_tasks (s : t) (body : list Bid.t) (now : Z) := bid_loop s body now.

(** [add_integer_id_rule]; [release] is the pair of [release_start] and
    [release_end] when [release_start] is given. *)
Definition add_integer_id_rule (s : t) (max_tasks : Z) (release : option (Z * Z))
           (ruleID : option string) (timeout : Z) (body : RuleInfo.t)
           (now : Z) (uuid : string) : t * result string :=
  let ruleID := default (fmt_06d (_rule_n s) ++ "-" ++ uuid)%string ruleID in
  match IntegerIDRule.init retries ruleID (RuleInfo.template body)
                           (RuleInfo.inputsByTask body) max_tasks 600 timeout
                           (RuleInfo.on_completion body) true now with
  | Exc e => (s, Exc e)
  | Ret rule =>
      let released :=
        match release with
        | None => (rule, Ret tt)
        | Some (release_start, release_end) =>
            IntegerIDRule.make_range_available rule release_start release_end now
        end in
      match released with
      | (_, Exc e) => (s, Exc e)
      | (rule, Ret _) =>
          let s := set_rules s (OrderedDict.set (_rules s) ruleID rule) in
          (set_rule_n s (_rule_n s + 1), Ret ruleID)
      end
  end.

(** The delegations [release_rule_tasks], [inactivate_rule] and
    [mark_datasource_complete]. *)
Definition with_rule {A} (s : t) (ruleID : string)
           (method : Rule -> Rule * result A) : t * result A :=
  match OrderedDict.get (_rules s) ruleID with
  | None => (s, Exc (KeyError (repr ruleID)))
  | Some rule =>
      let (rule, res) := method rule in
      (set_rules s (OrderedDict.set (_rules s) ruleID rule), res)
  end.

Definition release_rule_tasks (s : t) (ruleID : string) (release_start release_end : Z)
           (now : Z) : t * result unit :=
  with_rule s ruleID
    (fun rule => IntegerIDRule.make_range_available rule release_start release_end now).

Definition inactivate_rule (s : t) (ruleID : string) : t * result unit :=
  with_rule s ruleID (fun rule => (IntegerIDRule.inactivate rule, Ret tt)).

Definition mark_datasource_complete (s : t) (rule_id : string) (n_max : Z)
  : t * result unit :=
  with_rule s rule_id (fun rule => IntegerIDRule.mark_datasource_complete rule n_max).

(** The [for] loop inside the [try] of [handin]. *)
Fixpoint handin_loop (s : t) (body : list Handin.t) (now : Z) : t * result unit :=
  match body with
  | [] => (s, Ret tt)
  | handin :: body' =>
      let ruleID := Handin.ruleID handin in
      match OrderedDict.get (_rules s) ruleID with
      | None => (s, Exc (KeyError (repr ruleID)))
      | Some rule =>
          match IntegerIDRule.mark_complete rule handin now with
          | (rule, Exc e) =>
              (set_rules s (OrderedDict.set (_rules s) ruleID rule), Exc e)
          | (rule, Ret _) =>
              handin_loop (set_rules s (OrderedDict.set (_rules s) ruleID rule)) body' now
          end
      end
  end.

(** [handin]: a [KeyError] of the loop becomes the answer
    [{'ok': False, 'error': str(e)}]; any other exception goes on. *)
Definition handin (s : t) (body : list Handin.t) (now : Z) : t * result Response.t :=
  match handin_loop s body now with
  | (s, Ret _) => (s, Ret (Response.mk true None))
  | (s, Exc (KeyError k)) => (s, Ret (Response.mk false (Some k)))
  | (s, Exc e) => (s, Exc e)
  end.
End Server.

End RuleServer.

(** ** Vocabulary of the statements *)

(** The value that [a[ids] = vals] leaves in row [k] of an array of [n]
    rows: the one paired with the last index that addresses [k]. *)
Fixpoint last_put {V} (n : nat) (ivs : list (Z * V)) (k : nat) : option V :=
  match ivs with
  | [] => None
  | (i, v) :: rest =>
      match last_put n rest k with
      | Some w => Some w
      | None => if decide (py_index n i = Some k) then Some v else None
      end
  end.

(** [self._task_info[i]], when [i] is an index of the array. *)
Definition row (r : Rule) (i : Z) : option Task :=
  k ← py_index (length (IntegerIDRule._task_info r)) i; IntegerIDRule._task_info r !! k.

(** The task [i] exists and its status is Available. *)
Definition is_available (r : Rule) (i : Z) : bool :=
  match row r i with
  | Some x => has_status STATUS_AVAILABLE x
  | None => false
  end.

(** Two indices address the same row of the task array of [r]. *)
Definition same_row (r : Rule) (i i' : Z) : Prop :=
  py_index (length (IntegerIDRule._task_info r)) i =
  py_index (length (IntegerIDRule._task_info r)) i'.


(** *** Sequences of operations on one rule *)

Inductive op :=
| MakeRangeAvailable (start end_ now : Z)
| MarkDatasourceComplete (n_max : Z)
| PlaceBid (b : Bid.t) (now : Z)
| MarkComplete (info : Handin.t) (now : Z)
| ReadAdvert
| Inactivate
| PollTimeouts (now : Z).

(** The rule after one operation; an operation that raises leaves the rule
    as it was when it raised. *)
Definition step (r : Rule) (o : op) : Rule :=
  match o with
  | MakeRangeAvailable start end_ now =>
      (IntegerIDRule.make_range_available r start end_ now).1
  | MarkDatasourceComplete n_max => (IntegerIDRule.mark_datasource_complete r n_max).1
  | PlaceBid b now => (IntegerIDRule.bid r b now).1
  | MarkComplete info now => (IntegerIDRule.mark_complete r info now).1
  | ReadAdvert => (IntegerIDRule.advert r).1
  | Inactivate => IntegerIDRule.inactivate r
  | PollTimeouts now => IntegerIDRule.poll_timeouts r now
  end.

Definition run (r : Rule) (ops : list op) : Rule := fold_left step ops r.

(** The ids a bid was answered with. *)
Definition granted_ids (res : result Award.t) : list Z :=
  match res with
  | Ret award => Award.taskIDs award
  | Exc _ => []
  end.

(** Row [k] of the task array has status [s]. *)
Definition status_is (r : Rule) (k : nat) (s : Z) : bool :=
  match IntegerIDRule._task_info r !! k with
  | Some x => has_status s x
  | None => false
  end.



(** The statuses of a hand-in are [STATUS_COMPLETE] or [STATUS_FAILED]. *)
Definition handin_statuses_valid (o : op) : bool :=
  match o with
  | MarkComplete info _ =>
      forallb (fun s => (s =? STATUS_COMPLETE) || (s =? STATUS_FAILED)) (Handin.status info)
  | _ => true
  end.






(** *** Concrete rules for the examples *)

(** A rule as [__init__] builds it at time 0; [rule_with] never raises for
    [n >= 0]. *)
Definition rule_with (retries n : Z) : Rule :=
  match IntegerIDRule.init retries "rule" "{{taskID}}" None n 600 3600 None true 0 with
  | Ret r => r
  | Exc _ => IntegerIDRule.mk "" None "" [] 0 0 0 None true 0 0 0 0 0 0 true None 0%Q 0
  end.


(** *** Counters *)

(** The four counters are what the task array gives when counted. *)
Definition counters_agree (r : Rule) : bool :=
  let n s := count_where (has_status s) (IntegerIDRule._task_info r) in
  (IntegerIDRule.nAvailable r =? n STATUS_AVAILABLE)
  && (IntegerIDRule.nAssigned r =? n STATUS_ASSIGNED)
  && (IntegerIDRule.nCompleted r =? n STATUS_COMPLETE)
  && (IntegerIDRule.nFailed r =? n STATUS_FAILED).

(** The ids are indices in [0, size) and no id comes twice. *)
Definition distinct_tasks (r : Rule) (ids : list Z) : bool :=
  forallb (fun i => (0 <=? i) && (i <? IntegerIDRule.size r)) ids
  && bool_decide (NoDup ids).

(** A row inside [start, end_) that is Complete or Failed. *)
Definition finished_in_range (start end_ : Z) (k : nat) (x : Task) : bool :=
  (start <=? Z.of_nat k) && (Z.of_nat k <? end_)
  && (has_status STATUS_COMPLETE x || has_status STATUS_FAILED x).

(** The calls under which the counters are kept:
    - [make_range_available] over a range without Complete or Failed tasks;
    - a bid with distinct ids and one cost for each;
    - a hand-in with distinct ids, one status for each, Complete or Failed,
      all of whose tasks are Assigned;
    - a sweep after which no retry count exceeds [_n_retries]. *)
Definition orderly (r : Rule) (o : op) : bool :=
  match o with
  | MakeRangeAvailable start end_ _ =>
      forallb negb (imap (finished_in_range start end_) (IntegerIDRule._task_info r))
  | PlaceBid b _ =>
      distinct_tasks r (Bid.taskIDs b)
      && bool_decide (length (Bid.costs b) = length (Bid.taskIDs b))
  | MarkComplete info _ =>
      distinct_tasks r (Handin.taskIDs info)
      && bool_decide (length (Handin.status info) = length (Handin.taskIDs info))
      && forallb (fun i => status_is r (Z.to_nat i) STATUS_ASSIGNED) (Handin.taskIDs info)
      && handin_statuses_valid o
  | PollTimeouts now =>
      forallb (fun x => negb (TaskInfo.nRetries (IntegerIDRule.requeue now x)
                              >? IntegerIDRule._n_retries r))
              (IntegerIDRule._task_info r)
  | _ => true
  end.

Fixpoint orderly_run (r : Rule) (ops : list op) : bool :=
  match ops with
  | [] => true
  | o :: ops' => orderly r o && orderly_run (step r o) ops'
  end.

(** Whether the status of task [i] of the array [a] is [s]. *)
Definition status_at (a : list Task) (s : Z) (i : Z) : bool :=
  match a !! Z.to_nat i with
  | Some x => has_status s x
  | None => false
  end.

(** One task is released and handed in as Complete without having been
    granted to anyone. *)
Definition unleased_handin : list op :=
  [MakeRangeAvailable 0 1 0; MarkComplete (Handin.mk "rule" [0] [STATUS_COMPLETE]) 1].

(** Three tasks are released, two of them granted, and the third handed in
    although it was never granted: the counters [nAssigned = 1] and
    [nAvailable = 1] no longer match the array (two Assigned, none
    Available). *)
Definition drifted_rule : Rule :=
  run (rule_with 3 3)
      [MakeRangeAvailable 0 3 0;
       PlaceBid (Bid.mk "rule" [0; 1] [1; 1]) 1;
       MarkComplete (Handin.mk "rule" [2] [STATUS_COMPLETE]) 2].

(** *** Concrete servers for the examples *)

(** A server whose only rule, ["a"], has one task, granted at time 1. *)
Definition one_rule_server : RuleServer.t :=
  RuleServer.mk
    [("a", run (rule_with 3 1)
               [MakeRangeAvailable 0 1 0; PlaceBid (Bid.mk "a" [0] [1]) 1])]
    None 0 1.

(** A batch whose first entry names a rule the server does not have (any
    more) and whose second entry completes task 0 of rule ["a"]. *)
Definition late_batch : list Handin.t :=
  [Handin.mk "gone" [0] [STATUS_COMPLETE]; Handin.mk "a" [0] [STATUS_COMPLETE]].

(** *** Advertisements *)

(** The advertisement that reading [advert] of [r] gives ([None] also when
    the read raises), and whether the read raises. *)
Definition advert_of (r : Rule) : option Advert.t :=
  match (IntegerIDRule.advert r).2 with
  | Ret a => a
  | Exc _ => None
  end.

Definition advert_raises (r : Rule) : bool :=
  match (IntegerIDRule.advert r).2 with
  | Ret _ => false
  | Exc _ => true
  end.

(** The number of task ids that the rules of [rules] advertise together. *)
Fixpoint total_advertised (rules : OrderedDict.t Rule) : Z :=
  match rules with
  | [] => 0
  | (_, r) :: rest =>
      match advert_of r with
      | Some a => Z.of_nat (length (Advert.availableTaskIDs a))
      | None => 0
      end + total_advertised rest
  end.

(** The registry entry of a rule after its [advert] was read. *)
Definition after_advert (kr : string * Rule) : string * Rule :=
  (kr.1, (IntegerIDRule.advert kr.2).1).

(** *** Concrete runs for the examples *)

(** Two tasks, both released at time 0. *)
Definition two_released : Rule := run (rule_with 3 2) [MakeRangeAvailable 0 2 0].

(** Task 0 of [two_released], granted at time 1 for the cost 5. *)
Definition first_bid : Bid.t := Bid.mk "rule" [0] [5].
Definition once_granted : Rule := (IntegerIDRule.bid two_released first_bid 1).1.


(** One task, no retries, granted at time 1: its lease runs to 601. *)
Definition leased_once : Rule :=
  run (rule_with 0 1) [MakeRangeAvailable 0 1 0; PlaceBid (Bid.mk "rule" [0] [1]) 1].

(** An orderly run over three tasks. *)
Definition orderly_ops : list op :=
  [MakeRangeAvailable 0 3 0;
   PlaceBid (Bid.mk "rule" [0; 1] [1; 1]) 1;
   MarkComplete (Handin.mk "rule" [0] [STATUS_COMPLETE]) 2;
   PollTimeouts 50;
   MarkDatasourceComplete 3;
   ReadAdvert].

(** A server whose only rule has completed its one task and names a
    follow-on of two tasks. *)
Definition next_stage : FollowOn := mkFollowOn (Some "next") (Some 2) None None.

Definition finished_rule : Rule :=
  match IntegerIDRule.init 3 "a" "first" None 1 600 3600 (Some next_stage) true 0 with
  | Ret r =>
      run r [MakeRangeAvailable 0 1 0; PlaceBid (Bid.mk "a" [0] [1]) 1;
             MarkComplete (Handin.mk "a" [0] [STATUS_COMPLETE]) 2]
  | Exc _ => rule_with 3 0
  end.


(** A server with two rules of two released tasks each. *)
Definition two_rule_server : RuleServer.t :=
  RuleServer.mk [("a", two_released); ("b", two_released)] None 0 2.

(** [o] is a call of [mark_datasource_complete]. *)
Definition seals (o : op) : bool :=
  match o with MarkDatasourceComplete _ => true | _ => false end.

(** *** The sweep over all rules *)

(** The rule of the entry [kr] is neither finished nor expired once its
    timeouts have been polled at [now]. *)
Definition stays (now : Z) (kr : string * Rule) : bool :=
  let r := IntegerIDRule.poll_timeouts kr.2 now in
  negb (IntegerIDRule.finished r) && negb (IntegerIDRule.expired r now).

Definition polled (now : Z) (kr : string * Rule) : string * Rule :=
  (kr.1, IntegerIDRule.poll_timeouts kr.2 now).

(** ** The status of the rules *)

(** The dictionary that [IntegerIDRule.info] returns. *)
Module RuleStatus.
Record t := mk {
  tasksPosted : Z;
  tasksRunning : Z;
  tasksCompleted : Z;
  tasksFailed : Z;
  averageExecutionCost : Q;
  active : bool
}.

(** [IntegerIDRule.info] *)
Definition info (r : Rule) : t :=
  mk (IntegerIDRule.nTotal r) (IntegerIDRule.nAssigned r)
     (IntegerIDRule.nCompleted r) (IntegerIDRule.nFailed r)
     (IntegerIDRule.avCost r) (IntegerIDRule._active r).
End RuleStatus.

(** The status cache of the server and [get_queues]: the answer
    [{'ok': True, 'result': {...}}] is the list of its [result] entries;
    [None] is the cache before the first call. *)
Module StatusCache.
Record t := mk {
  _cached_info : option (list (string * RuleStatus.t));
  _cached_info_expiry : Z;
  _cached_info_timeout : Z
}.

Definition init : t := mk None 0 5.

Definition get_queues (rules : OrderedDict.t Rule) (c : t) (now : Z)
  : t * option (list (string * RuleStatus.t)) :=
  if now >? _cached_info_expiry c then
    let result :=
      omap (fun qn => r ← OrderedDict.get rules qn; Some (qn, RuleStatus.info r))
           (OrderedDict.keys rules) in
    let c := mk (Some result) (now + _cached_info_timeout c) (_cached_info_timeout c) in
    (c, _cached_info c)
  else (c, _cached_info c).
End StatusCache.

(** *** More concrete rules and servers for the examples *)

(** A recipe rule of two released tasks with an input for task 0 only. *)
Definition rule_missing_input : Rule :=
  match IntegerIDRule.init 3 "recipe" "{{taskInputs}}" (Some {[0 := "a.h5"]})
                           2 600 3600 None true 0 with
  | Ret r => run r [MakeRangeAvailable 0 2 0]
  | Exc _ => rule_with 3 0
  end.

(** A follow-on dictionary without a template, and a server whose only rule
    has completed its one task and names it. *)
Definition broken_stage : FollowOn := mkFollowOn None (Some 2) None None.

Definition rule_with_broken_stage : Rule :=
  match IntegerIDRule.init 3 "a" "first" None 1 600 3600 (Some broken_stage) true 0 with
  | Ret r =>
      run r [MakeRangeAvailable 0 1 0; PlaceBid (Bid.mk "a" [0] [1]) 1;
             MarkComplete (Handin.mk "a" [0] [STATUS_COMPLETE]) 2]
  | Exc _ => rule_with 3 0
  end.

Definition broken_server : RuleServer.t :=
  RuleServer.mk [("a", rule_with_broken_stage)] None 0 1.

(** A server whose only rule has one task that was never released. *)
Definition idle_server : RuleServer.t := RuleServer.mk [("a", rule_with 3 1)] None 0 1.

(** The advertisement of [two_released]. *)
Definition both_tasks : Advert.t := Advert.mk "rule" "{{taskID}}" [0; 1] None.
(** * Properties *)

(** ** Indexing *)

Section Indexing.
Context {A : Type}.
Implicit Types (a : list A) (i : Z) (k n : nat).

Lemma py_index_lt n i k : py_index n i = Some k -> (k < n)%nat.
Proof.
  unfold py_index. repeat case_match; intros [= <-]; lia.
Qed.

Lemma py_index_nonneg n i : 0 <= i < Z.of_nat n -> py_index n i = Some (Z.to_nat i).
Proof.
  intros H. unfold py_index.
  destruct (0 <=? i) eqn:E1, (i <? Z.of_nat n) eqn:E2; simpl; try reflexivity; lia.
Qed.

Lemma py_index_of_nat n k : (k < n)%nat -> py_index n (Z.of_nat k) = Some k.
Proof.
  intros H. rewrite py_index_nonneg by lia. f_equal. lia.
Qed.

Lemma py_index_nonneg_inv n i k : 0 <= i -> py_index n i = Some k -> i = Z.of_nat k.
Proof.
  unfold py_index. repeat case_match; intros ? [= <-]; lia.
Qed.

Lemma take_Some_Forall2 a ids l :
  np_take a ids = Some l <->
  Forall2 (fun i x => exists k, py_index (length a) i = Some k /\ a !! k = Some x) ids l.
Proof.
  unfold np_take. rewrite mapM_Some.
  split; intros H; eapply Forall2_impl; try exact H; simpl; intros i x.
  - destruct (py_index (length a) i) as [k|]; simpl; [eauto | done].
  - intros (k & -> & Hk). done.
Qed.
End Indexing.

(** ** Indexed stores *)

Section Put.
Context {A V : Type} (f : V -> A -> A).
Implicit Types (a : list A) (ids : list Z) (vals : list V) (k : nat).

Lemma length_put a ids vals : length (put f a ids vals) = length a.
Proof.
  unfold put. generalize (zip ids vals) as ivs. intros ivs. revert a.
  induction ivs as [|[i v] ivs IH]; intros a; simpl; [done|].
  rewrite IH. case_match; [apply length_alter | done].
Qed.

Lemma put_cons a i ids v vals :
  put f a (i :: ids) (v :: vals) =
  put f (match py_index (length a) i with
         | Some k => alter (f v) k a
         | None => a
         end) ids vals.
Proof. reflexivity. Qed.

Hypothesis f_overwrites : forall v w x, f v (f w x) = f v x.

Lemma put_lookup a ids vals k :
  put f a ids vals !! k =
  match last_put (length a) (zip ids vals) k with
  | Some v => f v <$> a !! k
  | None => a !! k
  end.
Proof.
  unfold put. generalize (zip ids vals) as ivs. intros ivs. revert a.
  induction ivs as [|[i v] ivs IH]; intros a; simpl; [done|].
  rewrite IH. clear IH.
  destruct (py_index (length a) i) as [j|] eqn:Ei; simpl.
  - rewrite length_alter.
    destruct (last_put (length a) ivs k) as [w|].
    + rewrite list_lookup_alter. destruct (decide (j = k)) as [->|]; [|done].
      destruct (a !! k); simpl; [|done]. by rewrite f_overwrites.
    + rewrite list_lookup_alter.
      destruct (decide (j = k)) as [Hjk|Hjk];
        destruct (decide (Some j = Some k)) as [Hs|Hs]; congruence.
  - destruct (last_put (length a) ivs k); [done|].
    destruct (decide (None = Some k)); congruence.
Qed.
End Put.


Lemma last_put_const {V} n ids (c : V) k v :
  last_put n (zip ids (replicate (length ids) c)) k = Some v -> v = c.
Proof.
  induction ids as [|i ids IH]; simpl; [done|].
  destruct (last_put _ _ _); [auto|].
  case_decide; congruence.
Qed.

Lemma put_frame {A V} (f : V -> A -> A) a ids vals k :
  (forall i, i ∈ ids -> py_index (length a) i <> Some k) ->
  put f a ids vals !! k = a !! k.
Proof.
  unfold put. revert a vals.
  induction ids as [|i ids IH]; intros a [|v vals] H; simpl; try done.
  assert (Hi := H i ltac:(left)).
  destruct (py_index (length a) i) as [j|] eqn:Ei.
  - rewrite IH.
    + apply list_lookup_alter_ne. congruence.
    + intros i' Hi'. rewrite length_alter. apply H. by right.
  - apply IH. intros i' Hi'. apply H. by right.
Qed.

Lemma put_proj {A V B} (f : V -> A -> A) (g : A -> B) a ids vals :
  (forall v x, g (f v x) = g x) ->
  map g (put f a ids vals) = map g a.
Proof.
  intros Hg. unfold put. generalize (zip ids vals) as ivs. intros ivs. revert a.
  induction ivs as [|[i v] ivs IH]; intros a; simpl; [done|].
  rewrite IH. case_match; [|done].
  apply list_eq. intros j. rewrite !list_lookup_fmap, list_lookup_alter.
  case_decide; [subst|done]. destruct (a !! j); simpl; [|done]. by rewrite Hg.
Qed.

Lemma last_put_alias {V} n ids (vals : list V) k :
  length vals = length ids ->
  (exists i, i ∈ ids /\ py_index n i = Some k) ->
  is_Some (last_put n (zip ids vals) k).
Proof.
  revert vals. induction ids as [|i ids IH]; intros [|v vals] Hlen (i' & Hin & Hk);
    simpl in *; try done.
  - by apply elem_of_nil in Hin.
  - apply elem_of_cons in Hin as [->|Hin].
    + destruct (last_put n (zip ids vals) k); [eauto|].
      destruct (decide (py_index n i = Some k)); [eauto | done].
    + destruct (IH vals) as [w Hw]; [lia | eauto |]. rewrite Hw. eauto.
Qed.

Lemma last_put_const_alias {V} n ids (c : V) k :
  (exists i, i ∈ ids /\ py_index n i = Some k) ->
  last_put n (zip ids (replicate (length ids) c)) k = Some c.
Proof.
  intros H. destruct (last_put_alias n ids (replicate (length ids) c) k) as [v Hv].
  - apply length_replicate.
  - done.
  - rewrite Hv. f_equal. eapply last_put_const, Hv.
Qed.




Lemma length_select_same {A B} (m : list bool) (xs : list A) (ys : list B) :
  length xs = length ys -> length (select m xs) = length (select m ys).
Proof.
  revert xs ys. induction m as [|b m IH]; intros [|x xs] [|y ys] Hlen;
    simpl in *; try done.
  destruct b; simpl; rewrite (IH xs ys) by lia; done.
Qed.

(** ** Bids *)

Section Bid.
Import IntegerIDRule.
Implicit Types (r : Rule) (b : Bid.t) (i now : Z) (k : nat).

Lemma row_Some r i x :
  row r i = Some x <->
  exists k, py_index (length (_task_info r)) i = Some k /\ _task_info r !! k = Some x.
Proof.
  unfold row. destruct (py_index _ i) as [k|]; simpl.
  - split; [eauto | by intros (k' & [= <-] & ?)].
  - split; [done | by intros (k' & [=] & _)].
Qed.

Lemma take_status_rows r ids st :
  np_take (map TaskInfo.status (_task_info r)) ids = Some st ->
  Forall2 (fun i s => TaskInfo.status <$> row r i = Some s) ids st.
Proof.
  rewrite take_Some_Forall2. intros H. eapply Forall2_impl; [exact H|].
  simpl. intros i s (k & Hk & Hs).
  rewrite length_map in Hk. unfold row. rewrite Hk. simpl.
  by rewrite list_lookup_fmap in Hs.
Qed.

Lemma take_status_total r ids :
  Forall (fun i => is_Some (row r i)) ids ->
  is_Some (np_take (map TaskInfo.status (_task_info r)) ids).
Proof.
  intros H. induction H as [|i ids [x Hx] _ [st IH]].
  - by exists [].
  - exists (TaskInfo.status x :: st). apply take_Some_Forall2.
    apply take_Some_Forall2 in IH. constructor; [|done].
    apply row_Some in Hx as (k & Hk & Hx). exists k.
    rewrite length_map, list_lookup_fmap, Hx. done.
Qed.

Lemma granted_filter r ids st :
  Forall2 (fun i s => TaskInfo.status <$> row r i = Some s) ids st ->
  select (map (fun s => s =? STATUS_AVAILABLE) st) ids = List.filter (is_available r) ids.
Proof.
  induction 1 as [|i s ids st Hs _ IH]; simpl; [done|].
  unfold is_available at 1. destruct (row r i) as [x|]; simpl in Hs; [|done].
  injection Hs as <-. unfold has_status. rewrite IH. done.
Qed.
End Bid.

Section BidSpec.
Import IntegerIDRule.
Implicit Types (r : Rule) (b : Bid.t) (i now : Z) (k : nat).

Lemma set_status_overwrites v w x :
  TaskInfo.set_status v (TaskInfo.set_status w x) = TaskInfo.set_status v x.
Proof. by destruct x. Qed.

Lemma set_cost_overwrites v w x :
  TaskInfo.set_cost v (TaskInfo.set_cost w x) = TaskInfo.set_cost v x.
Proof. by destruct x. Qed.

Lemma set_expiry_overwrites v w x :
  TaskInfo.set_expiry v (TaskInfo.set_expiry w x) = TaskInfo.set_expiry v x.
Proof. by destruct x. Qed.

(** The task array after the three column stores of a bid. *)
Lemma bid_rows_lookup (a : list Task) granted cs e k :
  let a' := put TaskInfo.set_expiry
              (put TaskInfo.set_cost
                 (put TaskInfo.set_status a granted
                    (replicate (length granted) STATUS_ASSIGNED)) granted cs)
              granted (replicate (length granted) e) in
  length cs = length granted ->
  (exists i, i ∈ granted /\ py_index (length a) i = Some k) ->
  exists c, last_put (length a) (zip granted cs) k = Some c /\
    a' !! k = (fun x => TaskInfo.mk STATUS_ASSIGNED (TaskInfo.nRetries x) e c) <$> a !! k.
Proof.
  intros a' Hlen Halias. subst a'.
  destruct (last_put_alias (length a) granted cs k Hlen Halias) as [c Hc].
  exists c. split; [done|].
  rewrite put_lookup by apply set_expiry_overwrites.
  rewrite !length_put, last_put_const_alias by done.
  rewrite put_lookup by apply set_cost_overwrites.
  rewrite length_put, Hc.
  rewrite put_lookup by apply set_status_overwrites.
  rewrite last_put_const_alias by done.
  by destruct (a !! k).
Qed.

Lemma bid_inactive r b now :
  _active r = false -> bid r b now = (r, Ret (Award.mk (Bid.ruleID b) [] "")).
Proof. intros H. unfold bid. by rewrite H. Qed.

(** A bid whose indices are valid and whose costs match the indices. *)
Lemma bid_active r b now st :
  _active r = true ->
  np_take (map TaskInfo.status (_task_info r)) (Bid.taskIDs b) = Some st ->
  length (Bid.costs b) = length (Bid.taskIDs b) ->
  let mask := map (fun s => s =? STATUS_AVAILABLE) st in
  let granted := List.filter (is_available r) (Bid.taskIDs b) in
  exists r',
    bid r b now = (r', Ret (Award.mk (Bid.ruleID b) granted (_template r))) /\
    _task_info r' =
      put TaskInfo.set_expiry
        (put TaskInfo.set_cost
           (put TaskInfo.set_status (_task_info r) granted
              (replicate (length granted) STATUS_ASSIGNED))
           granted (select mask (Bid.costs b)))
        granted (replicate (length granted) (now + _timeout r)) /\
    nAvailable r' = nAvailable r - Z.of_nat (length granted) /\
    nAssigned r' = nAssigned r + Z.of_nat (length granted) /\
    nCompleted r' = nCompleted r /\ nFailed r' = nFailed r /\
    _n_retries r' = _n_retries r /\ _active r' = _active r /\
    _cached_advert r' = None.
Proof.
  intros Hact Htake Hlen mask granted. unfold bid. rewrite Hact, Htake. simpl.
  assert (Hst := take_status_rows r _ _ Htake).
  rewrite (granted_filter r _ _ Hst). fold granted. fold mask.
  unfold bool_index. rewrite decide_True.
  2:{ unfold mask. rewrite length_map. apply Forall2_length in Hst. lia. }
  eexists. split; [reflexivity|]. simpl. done.
Qed.

Lemma is_available_row r i :
  is_available r i = true ->
  exists k x, py_index (length (_task_info r)) i = Some k /\
              _task_info r !! k = Some x /\ TaskInfo.status x = STATUS_AVAILABLE.
Proof.
  unfold is_available. destruct (row r i) as [x|] eqn:Hrow; [|done].
  apply row_Some in Hrow as (k & Hk & Hx). unfold has_status. intros H.
  exists k, x. repeat split; try done. lia.
Qed.

Lemma same_row_available r i i' :
  same_row r i i' -> is_available r i = is_available r i'.
Proof. unfold same_row, is_available, row. by intros ->. Qed.

Lemma bid_frame r b now r' res k :
  bid r b now = (r', res) ->
  (forall x, _task_info r !! k = Some x -> TaskInfo.status x <> STATUS_AVAILABLE) ->
  _task_info r' !! k = _task_info r !! k.
Proof.
  unfold bid. destruct (_active r); simpl; [|by intros [= <- _]].
  destruct (np_take _ _) as [st|] eqn:Htake; [|by intros [= <- _]].
  assert (Hst := take_status_rows r _ _ Htake).
  rewrite (granted_filter r _ _ Hst).
  set (granted := List.filter (is_available r) (Bid.taskIDs b)).
  intros Hbid Hk.
  assert (forall i, i ∈ granted -> py_index (length (_task_info r)) i <> Some k) as Hno.
  { intros i Hi Hik. apply list_elem_of_In, filter_In in Hi as [_ Hav].
    apply is_available_row in Hav as (k' & x & Hk' & Hx & Hs).
    rewrite Hik in Hk'. injection Hk' as <-. by apply (Hk x). }
  destruct (bool_index _ _); injection Hbid as <- _; simpl.
  - rewrite put_frame; [rewrite put_frame; [by apply put_frame|]|];
      rewrite ?length_put; done.
  - by apply put_frame.
Qed.

End BidSpec.

(** ** One operation, one row *)

Section Rows.
Import IntegerIDRule.
Implicit Types (r : Rule) (k : nat).


Lemma put_slice_status_lookup (a : list Task) start end_ v k :
  put_slice_status a start end_ v !! k =
  (fun x => if (start <=? Z.of_nat k) && (Z.of_nat k <? end_)
            then TaskInfo.set_status v x else x) <$> a !! k.
Proof. unfold put_slice_status. by rewrite list_lookup_imap. Qed.

Lemma make_range_available_raises r start end_ now :
  let n := size r in
  (start <? 0) || (start >? n) || (end_ <? 0) || (end_ >? n) = true ->
  make_range_available r start end_ now = (r, Exc RuntimeError).
Proof. intros n H. unfold make_range_available. fold n. by rewrite H. Qed.

Lemma make_range_available_rows r start end_ now :
  let n := size r in
  (start <? 0) || (start >? n) || (end_ <? 0) || (end_ >? n) = false ->
  exists r', make_range_available r start end_ now = (r', Ret tt) /\
    _task_info r' = put_slice_status (_task_info r) start end_ STATUS_AVAILABLE.
Proof.
  intros n H. unfold make_range_available. fold n. rewrite H.
  eexists. split; [reflexivity|]. done.
Qed.







Lemma poll_timeouts_row r now k :
  let n := count_where (timed_out now) (_task_info r) in
  _task_info (poll_timeouts r now) !! k =
  (fun x => if n >? 0 then
              let y := requeue now x in
              if TaskInfo.nRetries y >? _n_retries r
              then TaskInfo.set_status STATUS_FAILED y else y
            else x) <$> _task_info r !! k.
Proof.
  simpl. unfold poll_timeouts.
  destruct (count_where (timed_out now) (_task_info r) >? 0); simpl.
  - rewrite !list_lookup_fmap. by destruct (_ !! k).
  - by destruct (_ !! k).
Qed.
End Rows.

(** ** A granted task is not granted again *)

Section Lease.
Import IntegerIDRule.
Implicit Types (r : Rule) (k : nat) (o : op).

Lemma bid_granted_available r b now i :
  In i (granted_ids (bid r b now).2) -> is_available r i = true.
Proof.
  unfold bid. destruct (_active r); simpl; [|done].
  destruct (np_take _ _) as [st|] eqn:Htake; simpl; [|done].
  assert (Hst := take_status_rows r _ _ Htake).
  rewrite (granted_filter r _ _ Hst).
  destruct (bool_index _ _); simpl; [|done].
  intros Hi. by apply filter_In in Hi as [_ Hi].
Qed.

Lemma bid_granted_assigned r b now r' award i k :
  bid r b now = (r', Ret award) ->
  In i (Award.taskIDs award) ->
  py_index (length (_task_info r')) i = Some k ->
  status_is r' k STATUS_ASSIGNED = true.
Proof.
  intros Hbid Hi Hk.
  destruct (_active r) eqn:Hact.
  2:{ rewrite bid_inactive in Hbid by done. injection Hbid as <- <-. done. }
  destruct (np_take (map TaskInfo.status (_task_info r)) (Bid.taskIDs b))
    as [st|] eqn:Htake.
  2:{ unfold bid in Hbid. rewrite Hact, Htake in Hbid. done. }
  assert (Hst := take_status_rows r _ _ Htake).
  assert (length (Bid.costs b) = length (Bid.taskIDs b)) as Hlen.
  { unfold bid in Hbid. rewrite Hact, Htake in Hbid. simpl in Hbid.
    unfold bool_index in Hbid. destruct (decide _) as [Hl|]; [|done].
    rewrite length_map in Hl. apply Forall2_length in Hst. lia. }
  destruct (bid_active r b now st Hact Htake Hlen) as (r'' & Hbid' & Harr & _).
  rewrite Hbid in Hbid'. injection Hbid' as <- ->. simpl in Hi.
  set (granted := List.filter (is_available r) (Bid.taskIDs b)) in *.
  assert (length (_task_info r') = length (_task_info r)) as Hsize.
  { rewrite Harr, !length_put. done. }
  rewrite Hsize in Hk.
  destruct (bid_rows_lookup (_task_info r) granted
              (select (map (fun s => s =? STATUS_AVAILABLE) st) (Bid.costs b))
              (now + _timeout r) k) as (c & _ & Hrow).
  { unfold granted. rewrite <- (granted_filter r _ _ Hst).
    by apply length_select_same. }
  { exists i. split; [by apply list_elem_of_In | done]. }
  rewrite <- Harr in Hrow. unfold status_is. rewrite Hrow.
  apply py_index_lt, lookup_lt_is_Some_2 in Hk as [x ->]. done.
Qed.



End Lease.

(** ** Timeouts *)

Section Counting.
Context {A : Type}.
Implicit Types (p : A -> bool) (a : list A).

Lemma count_where_nonneg p a : 0 <= count_where p a.
Proof. induction a as [|x a IH]; simpl; [lia|]. destruct (p x); lia. Qed.

Lemma count_where_pos p a k x : a !! k = Some x -> p x = true -> 0 < count_where p a.
Proof.
  revert k. induction a as [|y a IH]; intros [|k] Hk Hp; simpl in *; try done.
  - injection Hk as ->. rewrite Hp. pose proof (count_where_nonneg p a). lia.
  - specialize (IH k Hk Hp). destruct (p y); lia.
Qed.

Lemma count_where_app p a a' : count_where p (a ++ a') = count_where p a + count_where p a'.
Proof. induction a as [|x a IH]; simpl; [done|]. rewrite IH. lia. Qed.

Lemma count_where_ext p q a :
  (forall x, In x a -> p x = q x) -> count_where p a = count_where q a.
Proof.
  induction a as [|x a IH]; intros H; simpl; [done|].
  rewrite (H x) by (by left). rewrite IH; [done|]. intros y Hy. apply H. by right.
Qed.

Lemma where_from_In p a start i :
  In i (where_from p start a) <->
  exists k x, i = start + Z.of_nat k /\ a !! k = Some x /\ p x = true.
Proof.
  revert start. induction a as [|y a IH]; intros start; simpl.
  - split; [done | by intros (k & x & _ & ? & _)].
  - assert (In i (where_from p (start + 1) a) <->
            exists k x, i = start + Z.of_nat (S k) /\ a !! k = Some x /\ p x = true) as IH'.
    { rewrite IH. split; intros (k & x & -> & H); exists k, x; split; try done; lia. }
    destruct (p y) eqn:Hy; simpl; rewrite ?IH'.
    + split.
      * intros [<-|(k & x & -> & H)]; [exists O, y | exists (S k), x]; simpl; split; try done. lia.
      * intros ([|k] & x & -> & Hx & Hp); simpl in *; [left; lia | right; eauto].
    + split.
      * intros (k & x & -> & H). exists (S k), x. done.
      * intros ([|k] & x & -> & Hx & Hp); simpl in *; [congruence | eauto].
Qed.

End Counting.

Section Timeouts.
Import IntegerIDRule.
Implicit Types (r : Rule) (k : nat) (o : op).




Lemma mark_complete_cache r info now :
  _cached_advert (mark_complete r info now).1 = _cached_advert r.
Proof. unfold mark_complete. repeat (case_match; simpl; try done). Qed.

Lemma poll_timeouts_cache r now : _cached_advert (poll_timeouts r now) = None.
Proof. reflexivity. Qed.






End Timeouts.

Section Terminal.
Import IntegerIDRule.
Implicit Types (r : Rule) (k : nat).



End Terminal.

(** ** Counters *)

Section Counts.
Implicit Types (a : list Task) (s : Z) (k : nat).

Lemma count_where_alter {A} (p : A -> bool) (f : A -> A) (l : list A) k x :
  l !! k = Some x ->
  count_where p (alter f k l) =
  count_where p l - (if p x then 1 else 0) + (if p (f x) then 1 else 0).
Proof.
  revert k. induction l as [|y l IH]; intros [|k] Hk; try done.
  - injection Hk as ->. simpl. lia.
  - change (alter f (S k) (y :: l)) with (y :: alter f k l).
    simpl in *. rewrite (IH k Hk). lia.
Qed.

Lemma count_where_imap {A} (p : A -> bool) (l : list A) : forall (f : nat -> A -> A),
  (forall k x, l !! k = Some x -> p (f k x) = p x) ->
  count_where p (imap f l) = count_where p l.
Proof.
  induction l as [|y l IH]; intros f Hf; simpl; [done|].
  rewrite (Hf O y) by done. rewrite IH; [done|].
  intros k x Hk. apply (Hf (S k) x Hk).
Qed.

Lemma count_where_map {A} (p : A -> bool) (f : A -> A) (l : list A) :
  (forall x, In x l -> p (f x) = p x) ->
  count_where p (map f l) = count_where p l.
Proof.
  induction l as [|y l IH]; intros Hf; simpl; [done|].
  rewrite Hf by (by left). rewrite IH; [done|]. intros x Hx. apply Hf. by right.
Qed.

Lemma count_where_replicate {A} (p : A -> bool) n (x : A) :
  count_where p (replicate n x) = if p x then Z.of_nat n else 0.
Proof.
  induction n as [|n IH]; simpl; [by destruct (p x)|].
  rewrite IH. destruct (p x); lia.
Qed.

Lemma count_status_proj s a :
  count_where (has_status s) a = count_where (fun z => z =? s) (map TaskInfo.status a).
Proof. induction a as [|x a IH]; simpl; [done|]. by rewrite IH. Qed.

(** Counting a status after [status[ids] = vals] with distinct indices. *)
Lemma count_put_status s ids : forall vals a,
  NoDup ids ->
  Forall (fun i => 0 <= i < Z.of_nat (length a)) ids ->
  length vals = length ids ->
  count_where (has_status s) (put TaskInfo.set_status a ids vals) =
  count_where (has_status s) a - count_where (status_at a s) ids
  + count_where (fun v => v =? s) vals.
Proof.
  induction ids as [|i ids IH]; intros [|v vals] a Hnd Hin Hlen; simpl in Hlen; try done.
  { unfold put. simpl. lia. }
  apply NoDup_cons in Hnd as [Hi Hnd]. apply Forall_cons in Hin as [Hir Hin].
  rewrite put_cons, py_index_nonneg by done.
  destruct (lookup_lt_is_Some_2 a (Z.to_nat i)) as [x Hx]; [lia|].
  rewrite IH; [|done|by rewrite length_alter|lia].
  rewrite (count_where_alter _ _ _ _ x Hx). simpl.
  unfold status_at at 2. rewrite Hx.
  assert (count_where (status_at (alter (TaskInfo.set_status v) (Z.to_nat i) a) s) ids
          = count_where (status_at a s) ids) as ->.
  { apply count_where_ext. intros j Hj. unfold status_at.
    rewrite list_lookup_alter_ne; [done|].
    intros Heq. apply Hi. apply list_elem_of_In.
    rewrite Forall_forall in Hin. specialize (Hin j ltac:(by apply list_elem_of_In)).
    assert (i = j) as -> by lia. done. }
  unfold has_status at 3. simpl. lia.
Qed.
End Counts.

Section Agreement.
Import IntegerIDRule.
Implicit Types (r : Rule) (o : op).

Lemma counters_agree_spec r :
  counters_agree r = true <->
  nAvailable r = count_where (has_status STATUS_AVAILABLE) (_task_info r) /\
  nAssigned r = count_where (has_status STATUS_ASSIGNED) (_task_info r) /\
  nCompleted r = count_where (has_status STATUS_COMPLETE) (_task_info r) /\
  nFailed r = count_where (has_status STATUS_FAILED) (_task_info r).
Proof. unfold counters_agree. rewrite !andb_true_iff, !Z.eqb_eq. tauto. Qed.

Lemma count_where_none {A} (p : A -> bool) (l : list A) :
  (forall x, In x l -> p x = false) -> count_where p l = 0.
Proof.
  induction l as [|y l IH]; intros H; simpl; [done|].
  rewrite H by (by left). rewrite IH; [done|]. intros x Hx. apply H. by right.
Qed.

Lemma count_where_all {A} (p : A -> bool) (l : list A) :
  (forall x, In x l -> p x = true) -> count_where p l = Z.of_nat (length l).
Proof.
  induction l as [|y l IH]; intros H; simpl; [done|].
  rewrite H by (by left). rewrite IH; [lia|]. intros x Hx. apply H. by right.
Qed.

Lemma count_zeros s n : s <> 0 -> count_where (has_status s) (np_zeros n) = 0.
Proof.
  intros Hs. unfold np_zeros. rewrite count_where_replicate.
  unfold has_status. simpl. by destruct s.
Qed.

Lemma init_counters_agree retries id tpl inputs n tt rt oc dc now r :
  init retries id tpl inputs n tt rt oc dc now = Ret r -> counters_agree r = true.
Proof.
  unfold init. destruct (n <? 0); [done|]. intros [= <-].
  apply counters_agree_spec. simpl. by rewrite !count_zeros.
Qed.

Lemma distinct_tasks_spec r ids :
  distinct_tasks r ids = true ->
  NoDup ids /\ Forall (fun i => 0 <= i < Z.of_nat (length (_task_info r))) ids.
Proof.
  unfold distinct_tasks. rewrite andb_true_iff, forallb_forall, bool_decide_eq_true.
  intros [Hin Hnd]. split; [done|]. apply Forall_forall. intros i Hi.
  specialize (Hin i ltac:(by apply list_elem_of_In)). unfold size in Hin. lia.
Qed.

Lemma in_range_row r i :
  0 <= i < Z.of_nat (length (_task_info r)) ->
  row r i = _task_info r !! Z.to_nat i /\ is_Some (row r i).
Proof.
  intros Hi. unfold row. rewrite py_index_nonneg by done. simpl.
  split; [done|]. apply lookup_lt_is_Some_2. lia.
Qed.

(** *** make_range_available *)

Lemma make_range_available_agrees r start end_ now :
  orderly r (MakeRangeAvailable start end_ now) = true ->
  counters_agree r = true ->
  counters_agree (make_range_available r start end_ now).1 = true.
Proof.
  intros Hord Hag. unfold make_range_available.
  destruct (_ || _); simpl; [done|].
  apply counters_agree_spec in Hag as (_ & _ & Hc & Hf).
  apply counters_agree_spec. simpl. split; [done|]. split; [done|].
  simpl in Hord. rewrite forallb_forall in Hord.
  assert (forall k x, _task_info r !! k = Some x ->
                      finished_in_range start end_ k x = false) as Hno.
  { intros k x Hx. apply negb_true_iff, Hord, list_elem_of_In, list_elem_of_lookup.
    exists k. by rewrite list_lookup_imap, Hx. }
  rewrite Hc, Hf. unfold put_slice_status.
  split; symmetry; apply count_where_imap; intros k x Hx;
    specialize (Hno k x Hx); unfold finished_in_range in Hno;
    destruct ((start <=? Z.of_nat k) && (Z.of_nat k <? end_)); try done;
    simpl in Hno; apply orb_false_iff in Hno as [H3 H4];
    unfold has_status in *; simpl; by rewrite ?H3, ?H4.
Qed.

(** *** mark_datasource_complete *)

Lemma mark_datasource_complete_agrees r n_max :
  counters_agree r = true ->
  counters_agree (mark_datasource_complete r n_max).1 = true.
Proof.
  intros Hag. apply counters_agree_spec in Hag as (_ & _ & Hc & Hf).
  unfold mark_datasource_complete.
  destruct (nAssigned (_update_nums r) >? n_max); simpl.
  { apply counters_agree_spec. simpl. done. }
  change (size (_update_nums r)) with (size r).
  destruct (n_max >? size r); apply counters_agree_spec; simpl; [|done].
  rewrite !count_where_app, !count_zeros by done. rewrite Hc, Hf. lia.
Qed.

(** *** bid *)

Lemma NoDup_list_filter {A} (f : A -> bool) (l : list A) :
  NoDup l -> NoDup (List.filter f l).
Proof.
  induction 1 as [|x l Hx _ IH]; simpl; [constructor|].
  destruct (f x); [|done]. constructor; [|done].
  intros Hin. apply Hx. apply list_elem_of_In in Hin. apply list_elem_of_In.
  by apply filter_In in Hin as [Hin _].
Qed.

Lemma count_bid_rows s (a : list Task) granted cs e :
  count_where (has_status s)
    (put TaskInfo.set_expiry
       (put TaskInfo.set_cost
          (put TaskInfo.set_status a granted
             (replicate (length granted) STATUS_ASSIGNED)) granted cs) granted e) =
  count_where (has_status s)
    (put TaskInfo.set_status a granted (replicate (length granted) STATUS_ASSIGNED)).
Proof.
  rewrite !count_status_proj. f_equal.
  rewrite put_proj by (by intros ? []). rewrite put_proj by (by intros ? []). done.
Qed.

Lemma bid_agrees r b now :
  orderly r (PlaceBid b now) = true ->
  counters_agree r = true ->
  counters_agree (bid r b now).1 = true.
Proof.
  intros Hord Hag.
  destruct (_active r) eqn:Hact; [|by rewrite bid_inactive].
  simpl in Hord. apply andb_prop in Hord as [Hd Hlen].
  apply bool_decide_eq_true in Hlen.
  apply distinct_tasks_spec in Hd as [Hnd Hin].
  destruct (take_status_total r (Bid.taskIDs b)) as [st Htake].
  { eapply Forall_impl; [exact Hin|]. intros i Hi. by apply in_range_row. }
  destruct (bid_active r b now st Hact Htake Hlen)
    as (r' & Hbid & Harr & Hav & Has & Hc & Hf & _).
  rewrite Hbid. simpl.
  apply counters_agree_spec in Hag as (Hav0 & Has0 & Hc0 & Hf0).
  set (granted := List.filter (is_available r) (Bid.taskIDs b)) in *.
  assert (forall s, count_where (has_status s) (_task_info r') =
                    count_where (has_status s) (_task_info r)
                    - (if 1 =? s then Z.of_nat (length granted) else 0)
                    + (if 2 =? s then Z.of_nat (length granted) else 0)) as Hcount.
  { intros s. rewrite Harr, count_bid_rows, count_put_status.
    - f_equal; [f_equal|].
      + assert (forall i, In i granted ->
                          status_at (_task_info r) s i = (1 =? s)) as Hold.
        { intros i Hi. apply filter_In in Hi as [Hi Hav'].
          rewrite Forall_forall in Hin.
          specialize (Hin i ltac:(by apply list_elem_of_In)).
          unfold is_available in Hav'. rewrite (proj1 (in_range_row r i Hin)) in Hav'.
          unfold status_at. destruct (_ !! _) as [x|]; [|done].
          unfold has_status, STATUS_AVAILABLE in *.
          apply Z.eqb_eq in Hav'. by rewrite Hav'. }
        destruct (1 =? s) eqn:E; [apply count_where_all | apply count_where_none]; done.
      + rewrite count_where_replicate. done.
    - by apply NoDup_list_filter.
    - rewrite Forall_forall in *. intros i Hi. apply Hin.
      apply list_elem_of_In in Hi. apply list_elem_of_In.
      by apply filter_In in Hi as [Hi _].
    - apply length_replicate. }
  apply counters_agree_spec.
  rewrite !Hcount, Hav, Has, Hc, Hf, Hav0, Has0, Hc0, Hf0. simpl.
  repeat split; lia.
Qed.

(** *** mark_complete *)

Lemma take_rows_total r ids :
  Forall (fun i => 0 <= i < Z.of_nat (length (_task_info r))) ids ->
  is_Some (np_take (_task_info r) ids).
Proof.
  induction 1 as [|i ids Hi _ [l IH]]; [by exists []|].
  destruct (in_range_row r i Hi) as [_ [x Hx]].
  exists (x :: l). apply take_Some_Forall2. apply take_Some_Forall2 in IH.
  constructor; [|done]. by apply row_Some.
Qed.

Lemma valid_statuses_uint8 (st : list Z) :
  forallb (fun s => (s =? STATUS_COMPLETE) || (s =? STATUS_FAILED)) st = true ->
  map uint8 st = st /\
  count_where (fun v => v =? STATUS_AVAILABLE) st = 0 /\
  count_where (fun v => v =? STATUS_ASSIGNED) st = 0.
Proof.
  rewrite forallb_forall. intros H.
  assert (forall s, In s st -> s = 3 \/ s = 4) as H'.
  { intros s Hs. specialize (H s Hs). unfold STATUS_COMPLETE, STATUS_FAILED in H.
    apply orb_true_iff in H as [E|E]; apply Z.eqb_eq in E; auto. }
  split; [|split].
  - rewrite <- (map_id st) at 2. apply map_ext_in. intros s Hs.
    by destruct (H' s Hs) as [-> | ->].
  - apply count_where_none. intros s Hs. by destruct (H' s Hs) as [-> | ->].
  - apply count_where_none. intros s Hs. by destruct (H' s Hs) as [-> | ->].
Qed.

Lemma mark_complete_agrees r info now :
  orderly r (MarkComplete info now) = true ->
  counters_agree r = true ->
  counters_agree (mark_complete r info now).1 = true.
Proof.
  intros Hord Hag. simpl in Hord.
  apply andb_prop in Hord as [Hord Hval]. apply andb_prop in Hord as [Hord Hass].
  apply andb_prop in Hord as [Hd Hlen]. apply bool_decide_eq_true in Hlen.
  apply distinct_tasks_spec in Hd as [Hnd Hin].
  destruct (valid_statuses_uint8 _ Hval) as (Hu & Hn1 & Hn2).
  destruct (take_rows_total r _ Hin) as [l Htake].
  apply counters_agree_spec in Hag as (Hav0 & Has0 & Hc0 & Hf0).
  unfold mark_complete. rewrite Htake, Hu. unfold broadcast.
  rewrite decide_True by done. simpl.
  assert (forall s, count_where (has_status s)
                      (put TaskInfo.set_status (_task_info r) (Handin.taskIDs info)
                           (Handin.status info)) =
                    count_where (has_status s) (_task_info r)
                    - (if 2 =? s then Z.of_nat (length (Handin.taskIDs info)) else 0)
                    + count_where (fun v => v =? s) (Handin.status info)) as Hcount.
  { intros s. rewrite count_put_status by done. f_equal. f_equal.
    assert (forall i, In i (Handin.taskIDs info) ->
                      status_at (_task_info r) s i = (2 =? s)) as Hold.
    { intros i Hi. rewrite forallb_forall in Hass. specialize (Hass i Hi).
      unfold status_is in Hass. unfold status_at.
      destruct (_ !! _) as [x|]; [|done].
      unfold has_status, STATUS_ASSIGNED in *.
      apply Z.eqb_eq in Hass. by rewrite Hass. }
    destruct (2 =? s) eqn:E; [apply count_where_all | apply count_where_none]; done. }
  apply counters_agree_spec. simpl.
  rewrite !Hcount, Hav0, Has0, Hc0, Hf0. simpl.
  unfold STATUS_AVAILABLE, STATUS_ASSIGNED in *. rewrite Hn1, Hn2.
  repeat split; lia.
Qed.

(** *** poll_timeouts *)

Lemma count_requeue now s (a : list Task) :
  count_where (has_status s) (map (requeue now) a) =
  count_where (has_status s) a
  - (if 2 =? s then count_where (timed_out now) a else 0)
  + (if 1 =? s then count_where (timed_out now) a else 0).
Proof.
  induction a as [|x a IH]; [simpl; by repeat case_match|].
  change (map (requeue now) (x :: a)) with (requeue now x :: map (requeue now) a).
  cbn [count_where]. rewrite IH. clear IH.
  destruct (timed_out now x) eqn:Ht.
  - assert (has_status s (requeue now x) = (1 =? s)) as ->.
    { unfold requeue. by rewrite Ht. }
    assert (has_status s x = (2 =? s)) as ->.
    { unfold timed_out, STATUS_ASSIGNED in Ht.
      apply andb_prop in Ht as [Ht _]. apply Z.eqb_eq in Ht.
      unfold has_status. by rewrite Ht. }
    destruct (1 =? s) eqn:E1, (2 =? s) eqn:E2; lia.
  - assert (requeue now x = x) as ->.
    { unfold requeue. by rewrite Ht. }
    destruct (has_status s x), (1 =? s), (2 =? s); lia.
Qed.

Lemma poll_timeouts_agrees r now :
  orderly r (PollTimeouts now) = true ->
  counters_agree r = true ->
  counters_agree (poll_timeouts r now) = true.
Proof.
  intros Hord Hag. simpl in Hord. rewrite forallb_forall in Hord.
  apply counters_agree_spec in Hag as (Hav0 & Has0 & Hc0 & Hf0).
  unfold poll_timeouts.
  destruct (count_where (timed_out now) (_task_info r) >? 0);
    apply counters_agree_spec; simpl; [|done].
  set (a1 := map (requeue now) (_task_info r)).
  assert (forall x, In x a1 -> (TaskInfo.nRetries x >? _n_retries r) = false) as Hnone.
  { intros x Hx. apply in_map_iff in Hx as (y & <- & Hy).
    apply negb_true_iff, Hord, Hy. }
  assert (map (fun x => if TaskInfo.nRetries x >? _n_retries r
                        then TaskInfo.set_status STATUS_FAILED x else x) a1 = a1) as ->.
  { rewrite <- (map_id a1) at 2. apply map_ext_in. intros x Hx. by rewrite Hnone. }
  rewrite (count_where_none _ a1 Hnone).
  unfold a1. rewrite !count_requeue. simpl.
  rewrite Hav0, Has0, Hc0, Hf0. repeat split; lia.
Qed.

(** *** advert and inactivate *)

Lemma advert_agrees r : counters_agree (advert r).1 = counters_agree r.
Proof.
  unfold advert. destruct (_active r); [|done]. simpl.
  destruct (_cached_advert r); [done|].
  destruct (np_where _ _); [done|].
  destruct (_inputs_by_task _); [destruct (mapM _ _)|]; done.
Qed.

Lemma orderly_step r o :
  orderly r o = true -> counters_agree r = true -> counters_agree (step r o) = true.
Proof.
  destruct o; unfold step; intros Hord Hag.
  - by apply make_range_available_agrees.
  - by apply mark_datasource_complete_agrees.
  - by apply bid_agrees.
  - by apply mark_complete_agrees.
  - by rewrite advert_agrees.
  - done.
  - by apply poll_timeouts_agrees.
Qed.

Lemma orderly_run_agrees ops : forall r,
  counters_agree r = true -> orderly_run r ops = true ->
  counters_agree (run r ops) = true.
Proof.
  induction ops as [|o ops IH]; intros r Hag Hord; simpl in *; [done|].
  apply andb_prop in Hord as [Ho Hord]. apply IH; [|done]. by apply orderly_step.
Qed.

(** [C3], counterexample.  A task that was released but never granted is
    handed in as Complete; [mark_complete] takes it as it comes and counts
    one Assigned task less: [nAssigned] is -1 while no task is Assigned,
    and [nAvailable] is still 1 while no task is Available. *)
Lemma counters_drift_on_unleased_handin :
  let r := run (rule_with 3 1) unleased_handin in
  _task_info r = [TaskInfo.mk STATUS_COMPLETE 0 0 0] /\
  nAssigned r = -1 /\
  count_where (has_status STATUS_ASSIGNED) (_task_info r) = 0 /\
  nAvailable r = 1 /\
  count_where (has_status STATUS_AVAILABLE) (_task_info r) = 0.
Proof. vm_compute. repeat split. Qed.

(** [C3], amended.  In every state that a rule reaches from its creation
    by orderly calls, the counters are what the task array gives when
    counted: [nAvailable], [nAssigned], [nCompleted] and [nFailed] are the
    numbers of Available, Assigned, Complete and Failed tasks.  The calls
    are any [mark_datasource_complete], [advert] and [inactivate], and
    - [make_range_available] over a range without Complete or Failed tasks,
    - bids with distinct task ids and one cost for each,
    - hand-ins with distinct ids of Assigned tasks and one status, Complete
      or Failed, for each,
    - sweeps after which no retry count exceeds [_n_retries]. *)
Theorem counters_agree_on_orderly_runs
        retries id tpl inputs n task_timeout rule_timeout oc dc now r ops :
  init retries id tpl inputs n task_timeout rule_timeout oc dc now = Ret r ->
  orderly_run r ops = true ->
  let r' := run r ops in
  nAvailable r' = count_where (has_status STATUS_AVAILABLE) (_task_info r') /\
  nAssigned r' = count_where (has_status STATUS_ASSIGNED) (_task_info r') /\
  nCompleted r' = count_where (has_status STATUS_COMPLETE) (_task_info r') /\
  nFailed r' = count_where (has_status STATUS_FAILED) (_task_info r').
Proof.
  intros Hinit Hord r'. apply counters_agree_spec, orderly_run_agrees; [|done].
  eapply init_counters_agree, Hinit.
Qed.
End Agreement.

(** ** Releasing a range *)

Section Release.
Import IntegerIDRule.
Implicit Types (r : Rule) (k : nat).

(** [C6], counterexample.  On a rule of three tasks the call
    [make_range_available(2, 1)] has [start > end] with both inside
    [0, maxTaskID]; it is not rejected: it returns, and no task changes. *)
Lemma reversed_range_is_accepted :
  let r := rule_with 3 3 in
  (make_range_available r 2 1 0).2 = Ret tt /\
  _task_info (make_range_available r 2 1 0).1 = _task_info r.
Proof. vm_compute. split; reflexivity. Qed.

(** [C6], amended.  [make_range_available(start, end)] raises its
    [RuntimeError] exactly when [start] or [end] lies outside [0, size],
    [size] being the length of the task array, and then changes nothing.
    Otherwise it returns, every task in [start, end) is Available and every
    other task keeps its row; with [start > end] this interval is empty and
    no task changes. *)
Theorem make_range_available_checks_bounds r start end_ now :
  let n := size r in
  let out := make_range_available r start end_ now in
  (out.2 = Exc RuntimeError <-> ~ (0 <= start <= n /\ 0 <= end_ <= n)) /\
  (out.2 = Exc RuntimeError -> out.1 = r) /\
  (out.2 <> Exc RuntimeError ->
     out.2 = Ret tt /\
     length (_task_info out.1) = length (_task_info r) /\
     (forall k x, _task_info r !! k = Some x ->
        _task_info out.1 !! k =
        Some (if (start <=? Z.of_nat k) && (Z.of_nat k <? end_)
              then TaskInfo.set_status STATUS_AVAILABLE x else x)) /\
     (end_ <= start -> _task_info out.1 = _task_info r)).
Proof.
  intros n out. subst out.
  destruct ((start <? 0) || (start >? n) || (end_ <? 0) || (end_ >? n)) eqn:E.
  - rewrite make_range_available_raises by done. simpl.
    split; [|split]; [split; [intros _; lia | done] | done | done].
  - destruct (make_range_available_rows r start end_ now E) as (r' & -> & Ha).
    simpl. split; [|split]; [split; [done | lia] | done |].
    intros _. split; [done|]. rewrite Ha. unfold put_slice_status.
    split; [by rewrite length_imap|]. split.
    + intros k x Hx. by rewrite list_lookup_imap, Hx.
    + intros Hle. apply list_eq. intros k. rewrite list_lookup_imap.
      destruct (_task_info r !! k) as [x|]; [|done]. simpl.
      assert ((start <=? Z.of_nat k) && (Z.of_nat k <? end_) = false) as -> by lia.
      done.
Qed.
End Release.

(** ** Sealing the datasource *)

Section Seal.
Import IntegerIDRule.
Implicit Types (r : Rule) (k : nat).

(** [C7], counterexample.  In [drifted_rule] two tasks are Assigned while
    the counters say [nAssigned = 1] and [nAvailable = 1].  The call
    [mark_datasource_complete(1)] is rejected with [ValueError], and it
    leaves [nAssigned = 2] and [nAvailable = 0]: the counters were
    recomputed before the check. *)
Lemma rejected_seal_refreshes_counters :
  let r := drifted_rule in
  let out := mark_datasource_complete r 1 in
  out.2 = Exc ValueError /\
  nAssigned r = 1 /\ nAssigned out.1 = 2 /\
  nAvailable r = 1 /\ nAvailable out.1 = 0.
Proof. vm_compute. repeat split. Qed.

Lemma update_nums_id r :
  nAvailable r = count_where (has_status STATUS_AVAILABLE) (_task_info r) ->
  nAssigned r = count_where (has_status STATUS_ASSIGNED) (_task_info r) ->
  _update_nums r = r.
Proof. destruct r. unfold _update_nums. simpl. by intros <- <-. Qed.

Lemma mark_datasource_complete_accepts r n_max :
  count_where (has_status STATUS_ASSIGNED) (_task_info r) <= n_max ->
  let out := mark_datasource_complete r n_max in
  out.2 = Ret tt /\
  _task_info out.1 =
    (if n_max >? size r then _task_info r ++ np_zeros (n_max - size r)
     else _task_info r) /\
  _n_max out.1 = n_max.
Proof.
  intros Hle out. subst out. unfold mark_datasource_complete.
  change (size (_update_nums r)) with (size r).
  assert ((nAssigned (_update_nums r) >? n_max) = false) as ->.
  { change (nAssigned (_update_nums r))
      with (count_where (has_status STATUS_ASSIGNED) (_task_info r)). lia. }
  destruct (n_max >? size r); simpl; done.
Qed.

(** [C7], amended.  [mark_datasource_complete(n_max)] first recomputes
    [nAvailable] and [nAssigned] from the task array.  If [n_max] is less
    than the number of Assigned tasks the call is rejected with
    [ValueError] and the rule is as before except for these two counters:
    the task array, [nTotal], [nCompleted], [nFailed], [_n_max] and
    [_datasource_complete] are unchanged, and the whole rule is unchanged
    when the two counters agreed with the array.  Otherwise the call
    returns, the task array is extended with zero rows up to [n_max], the
    bound is [n_max] and the datasource is complete. *)
Theorem mark_datasource_complete_checks_assigned r n_max :
  let assigned := count_where (has_status STATUS_ASSIGNED) (_task_info r) in
  let out := mark_datasource_complete r n_max in
  if assigned >? n_max then
    out = (_update_nums r, Exc ValueError) /\
    _task_info out.1 = _task_info r /\
    nTotal out.1 = nTotal r /\ nCompleted out.1 = nCompleted r /\
    nFailed out.1 = nFailed r /\ _n_max out.1 = _n_max r /\
    _datasource_complete out.1 = _datasource_complete r /\
    nAssigned out.1 = assigned /\
    nAvailable out.1 = count_where (has_status STATUS_AVAILABLE) (_task_info r) /\
    (nAssigned r = assigned ->
     nAvailable r = count_where (has_status STATUS_AVAILABLE) (_task_info r) ->
     out.1 = r)
  else
    out.2 = Ret tt /\
    _task_info out.1 =
      (if n_max >? size r then _task_info r ++ np_zeros (n_max - size r)
       else _task_info r) /\
    _n_max out.1 = n_max /\
    _datasource_complete out.1 = true.
Proof.
  intros assigned out. subst out. unfold mark_datasource_complete.
  change (nAssigned (_update_nums r)) with assigned.
  change (size (_update_nums r)) with (size r).
  destruct (assigned >? n_max); simpl.
  - repeat split. intros Has Hav. by apply update_nums_id.
  - destruct (n_max >? size r); simpl; done.
Qed.

(** [C10] A call of [mark_datasource_complete] that succeeds changes no
    row that was there: every task keeps its status, retry count, lease
    expiry and cost.  The task array never shrinks: with [n_max] at most
    its length it is the same array and only [_n_max] is lowered, so the
    tasks from [n_max] on keep their state.  Every appended row is a zero
    row: Unavailable, no retries, no cost.  The call succeeds when [n_max]
    is not less than the number of Assigned tasks. *)
Theorem mark_datasource_complete_keeps_rows r n_max :
  count_where (has_status STATUS_ASSIGNED) (_task_info r) <= n_max ->
  exists r',
    mark_datasource_complete r n_max = (r', Ret tt) /\
    (forall k x, _task_info r !! k = Some x -> _task_info r' !! k = Some x) /\
    length (_task_info r') = Nat.max (length (_task_info r)) (Z.to_nat n_max) /\
    (n_max <= size r -> _task_info r' = _task_info r /\ _n_max r' = n_max) /\
    (forall k x, (length (_task_info r) <= k)%nat -> _task_info r' !! k = Some x ->
       TaskInfo.status x = STATUS_UNAVAILABLE /\ TaskInfo.nRetries x = 0 /\
       TaskInfo.expiry x = 0 /\ TaskInfo.cost x = 0).
Proof.
  intros Hle.
  destruct (mark_datasource_complete_accepts r n_max Hle) as (Hret & Ha & Hn).
  destruct (mark_datasource_complete r n_max) as [r' res]. simpl in *. subst res.
  exists r'. split; [done|]. rewrite Ha. unfold size in *.
  destruct (n_max >? Z.of_nat (length (_task_info r))) eqn:Egt.
  - split; [|split; [|split]].
    + intros k x Hx. by apply lookup_app_l_Some.
    + unfold np_zeros. rewrite length_app, length_replicate. lia.
    + intros Hs. lia.
    + intros k x Hk Hx. rewrite lookup_app_r in Hx by done.
      unfold np_zeros in Hx. apply lookup_replicate in Hx as [-> _]. done.
  - split; [|split; [|split]].
    + done.
    + lia.
    + done.
    + intros k x Hk Hx. apply lookup_lt_Some in Hx. lia.
Qed.
End Seal.

(** ** The registry *)

Section Registry.
Context {V : Type}.
Implicit Types (d : OrderedDict.t V) (k : string) (v : V).

Lemma get_set d k k' v :
  OrderedDict.get (OrderedDict.set d k v) k' =
  if String.eqb k k' then Some v else OrderedDict.get d k'.
Proof.
  induction d as [|[k0 v0] d IH]; simpl.
  - by destruct (String.eqb k k').
  - destruct (String.eqb k0 k) eqn:E; simpl.
    + apply String.eqb_eq in E. subst k0. by destruct (String.eqb k k').
    + rewrite IH. destruct (String.eqb k0 k') eqn:E'; [|done].
      apply String.eqb_eq in E'. subst k0. by rewrite String.eqb_sym, E.
Qed.

Lemma get_set_None d k k' v :
  OrderedDict.get d k' = None -> is_Some (OrderedDict.get d k) ->
  OrderedDict.get (OrderedDict.set d k v) k' = None.
Proof.
  intros Hk' [w Hk]. rewrite get_set.
  destruct (String.eqb k k') eqn:E; [|done].
  apply String.eqb_eq in E. congruence.
Qed.
End Registry.

(** ** Hand-in *)

Section Handin.
Import RuleServer.
Implicit Types (s : RuleServer.t) (body : list Handin.t).

Lemma handin_loop_app s pre post now s1 :
  handin_loop s pre now = (s1, Ret tt) ->
  handin_loop s (pre ++ post) now = handin_loop s1 post now.
Proof.
  revert s. induction pre as [|h pre IH]; intros s; simpl.
  - by intros [= <-].
  - destruct (OrderedDict.get (_rules s) (Handin.ruleID h)) as [rule|]; [|done].
    destruct (IntegerIDRule.mark_complete rule h now) as [rule' [[]|e]]; [|done].
    apply IH.
Qed.

Lemma handin_loop_unknown s pre now s1 res id :
  handin_loop s pre now = (s1, res) ->
  OrderedDict.get (_rules s) id = None ->
  OrderedDict.get (_rules s1) id = None.
Proof.
  revert s. induction pre as [|h pre IH]; intros s; simpl.
  - by intros [= <- _].
  - destruct (OrderedDict.get (_rules s) (Handin.ruleID h)) as [rule|] eqn:Hh;
      [|by intros [= <- _]].
    destruct (IntegerIDRule.mark_complete rule h now) as [rule' [[]|e]].
    + intros Hloop Hid. eapply IH; [exact Hloop|]. simpl.
      apply get_set_None; [done | by rewrite Hh].
    + intros [= <- _] Hid. simpl. apply get_set_None; [done | by rewrite Hh].
Qed.

(** [C5], counterexample.  The batch [late_batch] reaches a server whose
    only rule is ["a"], with task 0 Assigned.  The first entry names the
    unknown rule ["gone"]; the answer is [{'ok': False, 'error': ...}], and
    the second entry, which follows the failing one, is not applied: the
    server is unchanged and task 0 of ["a"] is still Assigned. *)
Lemma handin_drops_entries_after_unknown_rule :
  let out := handin one_rule_server late_batch 2 in
  out.2 = Ret (Response.mk false (Some "'gone'")) /\
  out.1 = one_rule_server /\
  (IntegerIDRule._task_info <$> OrderedDict.get (_rules out.1) "a") =
    Some [TaskInfo.mk STATUS_ASSIGNED 0 601 1].
Proof. vm_compute. repeat split. Qed.

(** [C5], amended.  A hand-in batch is applied entry by entry up to the
    first entry that names an unknown rule: the entries before it are
    applied to their rules, the failure is answered softly, with
    [{'ok': False, 'error': str(e)}] and no exception, and the entries
    after it are dropped unapplied. *)
Theorem handin_stops_at_unknown_rule s pre bad post now s1 :
  handin_loop s pre now = (s1, Ret tt) ->
  OrderedDict.get (_rules s) (Handin.ruleID bad) = None ->
  handin s pre now = (s1, Ret (Response.mk true None)) /\
  handin s (pre ++ bad :: post) now =
    (s1, Ret (Response.mk false (Some (repr (Handin.ruleID bad))))).
Proof.
  intros Hpre Hbad. unfold handin. split; [by rewrite Hpre|].
  rewrite (handin_loop_app _ _ _ _ _ Hpre). simpl.
  by rewrite (handin_loop_unknown _ _ _ _ _ _ Hpre Hbad).
Qed.
End Handin.

(** ** Rule chaining *)

Section Chaining.
Import RuleServer.
Implicit Types (s : RuleServer.t) (d : OrderedDict.t Rule).


Lemma remove_set {V} (d : OrderedDict.t V) k v :
  OrderedDict.remove (OrderedDict.set d k v) k = OrderedDict.remove d k.
Proof.
  induction d as [|[k0 v0] d IH]; simpl.
  - by rewrite String.eqb_refl.
  - destruct (String.eqb k0 k) eqn:E; simpl; rewrite E; [done|]. by rewrite IH.
Qed.



Lemma poll_timeouts_on_completion r now :
  IntegerIDRule.on_completion (IntegerIDRule.poll_timeouts r now) =
  IntegerIDRule.on_completion r.
Proof. unfold IntegerIDRule.poll_timeouts. by case_match. Qed.

End Chaining.

(** ** The advertisement list *)

Section Adverts.
Import RuleServer.
Implicit Types (s : RuleServer.t) (rules : OrderedDict.t Rule).

Lemma collect_adverts_prefix rules : forall nTasks,
  Forall (fun kr => advert_raises kr.2 = false) rules ->
  exists n,
    (n <= length rules)%nat /\
    collect_adverts rules nTasks =
      (map after_advert (firstn n rules) ++ skipn n rules,
       Ret (omap (fun kr => advert_of kr.2) (firstn n rules))) /\
    (forall m, (m < n)%nat ->
               nTasks + total_advertised (firstn m rules) < MAX_ADVERTISEMENTS) /\
    (n = length rules \/
     MAX_ADVERTISEMENTS <= nTasks + total_advertised (firstn n rules)).
Proof.
  induction rules as [|[k r] rest IH]; intros nTasks Hok.
  - exists O. simpl. split; [lia|]. split; [done|]. split; [intros m Hm; lia | by left].
  - apply Forall_cons in Hok as [Hr Hrest]. simpl in Hr.
    cbn [collect_adverts].
    destruct (nTasks <? MAX_ADVERTISEMENTS) eqn:Hlt.
    2:{ exists O. simpl. split; [lia|]. split; [done|].
        split; [intros m Hm; lia | right; lia]. }
    unfold advert_raises in Hr.
    destruct (IntegerIDRule.advert r) as [r' res] eqn:Hadv. simpl in Hr.
    assert (after_advert (k, r) = (k, r')) as Haa.
    { unfold after_advert. simpl. by rewrite Hadv. }
    destruct res as [oa|e]; [|done].
    assert (advert_of r = oa) as Hao.
    { unfold advert_of. by rewrite Hadv. }
    assert (exists n,
      (n <= length rest)%nat /\
      collect_adverts rest (nTasks + total_advertised [(k, r)]) =
        (map after_advert (firstn n rest) ++ skipn n rest,
         Ret (omap (fun kr => advert_of kr.2) (firstn n rest))) /\
      (forall m, (m < n)%nat ->
         nTasks + total_advertised [(k, r)] + total_advertised (firstn m rest)
         < MAX_ADVERTISEMENTS) /\
      (n = length rest \/
       MAX_ADVERTISEMENTS <=
       nTasks + total_advertised [(k, r)] + total_advertised (firstn n rest)))
      as (n & Hn & Hcol & Hbelow & Hstop) by apply IH, Hrest.
    cbn [total_advertised] in Hcol, Hbelow, Hstop.
    rewrite Hao in Hcol, Hbelow, Hstop.
    exists (S n). cbn [firstn skipn map length total_advertised].
    rewrite Haa, Hao. split; [lia|]. split; [|split].
    + destruct oa as [a|].
      * rewrite Z.add_0_r in Hcol. rewrite Hcol. cbn [omap list_omap snd].
        by rewrite Hao.
      * rewrite !Z.add_0_r in Hcol. rewrite Hcol. cbn [omap list_omap snd].
        by rewrite Hao.
    + intros [|m] Hm; cbn [firstn total_advertised]; [lia|].
      rewrite Hao. specialize (Hbelow m ltac:(lia)). lia.
    + destruct Hstop as [-> | Hstop]; [by left | right; lia].
Qed.

(** [C9] A rebuild of the advertisement list (the cache has run out)
    reads the rules in the order of the registry, that is, of
    registration, and stops after the first [n] of them: before each rule
    it reads, the ids advertised so far are fewer than
    [MAX_ADVERTISEMENTS]; it ends when the rules are exhausted or that count
    has reached [MAX_ADVERTISEMENTS].  The list holds, in the same order,
    the advertisement of every rule read that has one, each of them whole;
    the rules not read are left as they were.  No rule raises when its
    advertisement is read. *)
Theorem adverts_rebuilt_in_registration_order s now :
  _cached_advert_expiry s < now ->
  Forall (fun kr => advert_raises kr.2 = false) (_rules s) ->
  exists n,
    (n <= length (_rules s))%nat /\
    let visited := firstn n (_rules s) in
    let adverts := omap (fun kr => advert_of kr.2) visited in
    task_advertisements s now =
      (mk (map after_advert visited ++ skipn n (_rules s))
          (Some adverts) (now + 1) (_rule_n s),
       Ret (Some adverts)) /\
    (forall m, (m < n)%nat ->
               total_advertised (firstn m (_rules s)) < MAX_ADVERTISEMENTS) /\
    (n = length (_rules s) \/
     MAX_ADVERTISEMENTS <= total_advertised visited).
Proof.
  intros Hexp Hok.
  destruct (collect_adverts_prefix (_rules s) 0 Hok) as (n & Hn & Hcol & Hbelow & Hstop).
  exists n. split; [done|]. cbn zeta. unfold task_advertisements.
  assert ((now >? _cached_advert_expiry s) = true) as -> by lia.
  rewrite Hcol. split; [done|]. split; [|done].
  intros m Hm. by apply Hbelow.
Qed.
End Adverts.

(** ** The theorems at concrete inputs *)



Lemma counters_agree_on_orderly_runs_witness :
  let r' := run (rule_with 3 3) orderly_ops in
  IntegerIDRule.nAvailable r' =
    count_where (has_status STATUS_AVAILABLE) (IntegerIDRule._task_info r') /\
  IntegerIDRule.nAssigned r' =
    count_where (has_status STATUS_ASSIGNED) (IntegerIDRule._task_info r') /\
  IntegerIDRule.nCompleted r' =
    count_where (has_status STATUS_COMPLETE) (IntegerIDRule._task_info r') /\
  IntegerIDRule.nFailed r' =
    count_where (has_status STATUS_FAILED) (IntegerIDRule._task_info r').
Proof.
  apply (counters_agree_on_orderly_runs
           3 "rule" "{{taskID}}" None 3 600 3600 None true 0 (rule_with 3 3) orderly_ops).
  - vm_compute. reflexivity.
  - vm_compute. reflexivity.
Defined.


Lemma handin_stops_at_unknown_rule_witness :
  RuleServer.handin one_rule_server
    ([Handin.mk "a" [0] [STATUS_COMPLETE]]
       ++ Handin.mk "gone" [0] [STATUS_COMPLETE] :: [Handin.mk "a" [0] [STATUS_FAILED]]) 2 =
  ((RuleServer.handin_loop one_rule_server [Handin.mk "a" [0] [STATUS_COMPLETE]] 2).1,
   Ret (Response.mk false (Some "'gone'"))).
Proof.
  assert (RuleServer.handin_loop one_rule_server [Handin.mk "a" [0] [STATUS_COMPLETE]] 2 =
          ((RuleServer.handin_loop one_rule_server
              [Handin.mk "a" [0] [STATUS_COMPLETE]] 2).1, Ret tt)) as Hpre
    by (vm_compute; reflexivity).
  assert (OrderedDict.get (RuleServer._rules one_rule_server)
            (Handin.ruleID (Handin.mk "gone" [0] [STATUS_COMPLETE])) = None) as Hbad
    by (vm_compute; reflexivity).
  destruct (handin_stops_at_unknown_rule one_rule_server
              [Handin.mk "a" [0] [STATUS_COMPLETE]]
              (Handin.mk "gone" [0] [STATUS_COMPLETE])
              [Handin.mk "a" [0] [STATUS_FAILED]] 2 _ Hpre Hbad) as [_ Hall].
  exact Hall.
Defined.


Lemma adverts_rebuilt_in_registration_order_witness :
  exists n,
    (n <= 2)%nat /\
    (RuleServer.task_advertisements two_rule_server 5).2 =
      Ret (Some (omap (fun kr => advert_of kr.2)
                      (firstn n (RuleServer._rules two_rule_server)))).
Proof.
  assert (Forall (fun kr => advert_raises kr.2 = false)
                 (RuleServer._rules two_rule_server)) as Hok.
  { repeat constructor. }
  assert (RuleServer._cached_advert_expiry two_rule_server < 5) as Hexp by reflexivity.
  destruct (adverts_rebuilt_in_registration_order two_rule_server 5 Hexp Hok)
    as (n & Hn & Heq & _).
  exists n. split; [exact Hn|]. rewrite Heq. reflexivity.
Defined.

Lemma mark_datasource_complete_keeps_rows_witness :
  exists r',
    IntegerIDRule.mark_datasource_complete drifted_rule 5 = (r', Ret tt) /\
    length (IntegerIDRule._task_info r') = 5%nat.
Proof.
  assert (count_where (has_status STATUS_ASSIGNED) (IntegerIDRule._task_info drifted_rule)
          <= 5) as Hle by (vm_compute; discriminate).
  destruct (mark_datasource_complete_keeps_rows drifted_rule 5 Hle)
    as (r' & Hret & _ & Hlen & _).
  exists r'. split; [exact Hret|]. rewrite Hlen. vm_compute. reflexivity.
Defined.

(** ** Bids: errors and composition *)

Section BidMore.
Import IntegerIDRule.
Implicit Types (r : Rule) (b : Bid.t) (i now : Z) (k : nat).



Lemma bid_granted_requested r b now i :
  In i (granted_ids (bid r b now).2) -> In i (Bid.taskIDs b).
Proof.
  unfold bid. destruct (_active r); simpl; [|done].
  destruct (np_take _ _) as [st|] eqn:Htake; simpl; [|done].
  assert (Hst := take_status_rows r _ _ Htake).
  rewrite (granted_filter r _ _ Hst).
  destruct (bool_index _ _); simpl; [|done].
  intros Hi. by apply filter_In in Hi as [Hi _].
Qed.

Lemma bid_Ret_granted r b now r1 award :
  bid r b now = (r1, Ret award) -> _active r = true ->
  Award.taskIDs award = List.filter (is_available r) (Bid.taskIDs b) /\
  length (_task_info r1) = length (_task_info r).
Proof.
  unfold bid. intros Hbid Hact. rewrite Hact in Hbid. simpl in Hbid.
  destruct (np_take _ _) as [st|] eqn:Htake; [|done].
  assert (Hst := take_status_rows r _ _ Htake).
  rewrite (granted_filter r _ _ Hst) in Hbid.
  destruct (bool_index _ _); [|done].
  injection Hbid as <- <-. simpl. by rewrite !length_put.
Qed.

(** [X2] A bid that was answered wins nothing when it is placed again: every
    task it named is Assigned or was not Available in the first place. *)
Theorem repeated_bid_wins_nothing r b now r1 award now' :
  bid r b now = (r1, Ret award) ->
  granted_ids (bid r1 b now').2 = [].
Proof.
  intros Hbid.
  destruct (_active r) eqn:Hact.
  2:{ rewrite bid_inactive in Hbid by done. injection Hbid as <- _.
      by rewrite bid_inactive. }
  destruct (bid_Ret_granted _ _ _ _ _ Hbid Hact) as [Hids Hsize].
  destruct (granted_ids (bid r1 b now').2) as [|i rest] eqn:Hg; [done|].
  exfalso.
  assert (In i (granted_ids (bid r1 b now').2)) as Hi by (rewrite Hg; by left).
  assert (Hreq := bid_granted_requested _ _ _ _ Hi).
  apply bid_granted_available in Hi.
  destruct (is_available_row _ _ Hi) as (k & x & Hk & Hx & Hs).
  destruct (is_available r i) eqn:Hav.
  - assert (In i (Award.taskIDs award)) as Hgr
      by (rewrite Hids; by apply filter_In).
    assert (Hass := bid_granted_assigned _ _ _ _ _ _ _ Hbid Hgr Hk).
    unfold status_is in Hass. rewrite Hx in Hass.
    unfold has_status, STATUS_ASSIGNED, STATUS_AVAILABLE in *. lia.
  - rewrite Hsize in Hk.
    assert (_task_info r1 !! k = _task_info r !! k) as Hsame.
    { eapply bid_frame; [exact Hbid|]. intros y Hy Hsy.
      unfold is_available, row in Hav. rewrite Hk in Hav. simpl in Hav.
      rewrite Hy in Hav. unfold has_status in Hav. lia. }
    unfold is_available, row in Hav. rewrite Hk in Hav. simpl in Hav.
    rewrite <- Hsame, Hx in Hav. unfold has_status in Hav. lia.
Qed.
End BidMore.

(** ** The advertisement of a rule *)

Section AdvertMore.
Import IntegerIDRule.
Implicit Types (r : Rule) (i now : Z) (k : nat) (a : Advert.t).

Lemma np_where_elem {A} (p : A -> bool) (l : list A) i :
  In i (np_where p l) <->
  0 <= i < Z.of_nat (length l) /\ exists x, l !! Z.to_nat i = Some x /\ p x = true.
Proof.
  unfold np_where. rewrite where_from_In. split.
  - intros (k & x & -> & Hk & Hp). rewrite Z.add_0_l, Nat2Z.id.
    apply lookup_lt_Some in Hk as Hlt. split; [lia | eauto].
  - intros (Hi & x & Hx & Hp). exists (Z.to_nat i), x. split; [lia | done].
Qed.

Lemma advert_active r : _active (advert r).1 = _active r.
Proof. unfold advert. repeat (case_match; simpl; try done). Qed.

Lemma advert_Some_cached r a :
  (advert r).2 = Ret (Some a) ->
  _active r = true /\ _cached_advert (advert r).1 = Some a.
Proof.
  unfold advert. destruct (_active r); simpl; [|done].
  destruct (_cached_advert r) as [c|] eqn:Hc; simpl.
  { intros [= <-]. done. }
  destruct (np_where _ _) as [|i ids]; [done|].
  destruct (_inputs_by_task _); [destruct (mapM _ _)|];
    cbn [fst snd set_cached_advert _cached_advert]; intros H; by simplify_eq.
Qed.

(** [X4] After [make_range_available] has released a range of an active rule
    that has no task inputs, the advertisement of the rule lists every id
    of the range and, outside of it, the ids that were Available before;
    it lists no other id. *)
Theorem released_range_is_advertised r start end_ now :
  _active r = true -> _inputs_by_task r = None ->
  0 <= start -> start < end_ -> end_ <= size r ->
  exists r1 r2 a,
    make_range_available r start end_ now = (r1, Ret tt) /\
    advert r1 = (r2, Ret (Some a)) /\
    Advert.ruleID a = ruleID r /\
    Advert.taskTemplate a = _template r /\
    Advert.inputsByTask a = None /\
    forall i, In i (Advert.availableTaskIDs a) <->
              0 <= i < size r /\ (start <= i < end_ \/ is_available r i = true).
Proof.
  intros Hact Hin H0 Hlt Hend.
  assert ((start <? 0) || (start >? size r) || (end_ <? 0) || (end_ >? size r) = false)
    as Hok by (unfold size in *; lia).
  set (a' := put_slice_status (_task_info r) start end_ STATUS_AVAILABLE).
  assert (forall i, In i (np_where (has_status STATUS_AVAILABLE) a') <->
            0 <= i < size r /\ (start <= i < end_ \/ is_available r i = true)) as Hids.
  { intros i. rewrite np_where_elem. unfold a', put_slice_status, size.
    rewrite length_imap. split.
    - intros (Hi & x & Hx & Hp). split; [done|].
      rewrite list_lookup_imap in Hx.
      destruct (_task_info r !! Z.to_nat i) as [y|] eqn:Hy; [|done].
      simpl in Hx. rewrite Z2Nat.id in Hx by lia.
      destruct ((start <=? i) && (i <? end_)) eqn:E; [left; lia|].
      right. unfold is_available, row. rewrite py_index_nonneg by lia.
      simpl. rewrite Hy. by simplify_eq.
    - intros (Hi & Hcase). split; [done|].
      destruct (lookup_lt_is_Some_2 (_task_info r) (Z.to_nat i)) as [y Hy]; [lia|].
      rewrite list_lookup_imap, Hy. simpl. rewrite Z2Nat.id by lia.
      eexists. split; [reflexivity|].
      destruct ((start <=? i) && (i <? end_)) eqn:E; [done|].
      destruct Hcase as [Hr|Hav]; [lia|].
      unfold is_available, row in Hav. rewrite py_index_nonneg in Hav by lia.
      simpl in Hav. by rewrite Hy in Hav. }
  destruct (np_where (has_status STATUS_AVAILABLE) a') as [|i0 ids] eqn:Hw.
  { exfalso. apply (proj2 (Hids start)). unfold size in *. lia. }
  unfold make_range_available. rewrite Hok.
  eexists _, _, _. split; [reflexivity|].
  unfold advert. cbn [_active set_cached_advert set_expiry _update_nums set_nAssigned
                      set_nAvailable set_nTotal set_task_info _cached_advert _task_info
                      _inputs_by_task ruleID _template negb].
  rewrite Hact. cbn [negb]. fold a'. rewrite Hw, Hin.
  split; [reflexivity|]. cbn [Advert.ruleID Advert.taskTemplate
    Advert.inputsByTask Advert.availableTaskIDs].
  repeat split; try done; by apply Hids.
Qed.

(** [X5] Reading [advert] a second time gives the answer of the first reading
    and changes nothing more. *)
Theorem advert_read_twice r x :
  (advert r).2 = Ret x ->
  advert (advert r).1 = ((advert r).1, Ret x).
Proof.
  unfold advert at 1 3 4. destruct (_active r) eqn:Hact; simpl.
  2:{ intros [= <-]. unfold advert. by rewrite Hact. }
  destruct (_cached_advert r) as [c|] eqn:Hc; simpl.
  { intros [= <-]. unfold advert. by rewrite Hact, Hc. }
  destruct (np_where _ _) as [|i ids] eqn:Hw.
  { intros [= <-]. unfold advert. simpl. by rewrite Hact, Hw. }
  destruct (_inputs_by_task r) eqn:Hin; cbn [_inputs_by_task set_cached_advert].
  - destruct (mapM _ _); cbn [fst snd]; [|done].
    intros [= <-]. unfold advert. simpl. by rewrite Hact.
  - cbn [fst snd]. intros [= <-]. unfold advert. simpl. by rewrite Hact.
Qed.

(** [X6] When reading [advert] raises [KeyError] for a task without an input,
    the advertisement without inputs has already been cached: the next
    reading does not raise and answers with it. *)
Theorem advert_after_missing_input r e :
  (advert r).2 = Exc e ->
  exists a,
    advert (advert r).1 = ((advert r).1, Ret (Some a)) /\
    Advert.inputsByTask a = None /\
    Advert.availableTaskIDs a = np_where (has_status STATUS_AVAILABLE) (_task_info r).
Proof.
  unfold advert at 1 3 4. destruct (_active r) eqn:Hact; simpl; [|done].
  destruct (_cached_advert r) as [c|] eqn:Hc; simpl; [done|].
  destruct (np_where _ _) as [|i ids] eqn:Hw; [done|].
  destruct (_inputs_by_task r) eqn:Hin; cbn [_inputs_by_task set_cached_advert].
  - destruct (mapM _ _); cbn [fst snd]; [done|].
    intros _. eexists. unfold advert. simpl. rewrite Hact. simpl.
    split; [reflexivity|]. done.
  - done.
Qed.

Lemma mark_complete_active r info now :
  _active (mark_complete r info now).1 = _active r.
Proof. unfold mark_complete. repeat (case_match; simpl; try done). Qed.

(** [X7] A hand-in does not invalidate the cached advertisement: what [advert]
    answered before the hand-in it answers after it, whatever the hand-in
    did to the tasks. *)
Theorem handin_keeps_cached_advert r a info now :
  (advert r).2 = Ret (Some a) ->
  (advert (mark_complete (advert r).1 info now).1).2 = Ret (Some a).
Proof.
  intros H. apply advert_Some_cached in H as [Hact Hc].
  unfold advert at 1.
  rewrite mark_complete_active, advert_active, Hact, mark_complete_cache, Hc. done.
Qed.
End AdvertMore.

(** ** Hand-ins: errors and composition *)

Section HandinMore.
Import IntegerIDRule.
Implicit Types (r : Rule) (info : Handin.t) (i now : Z) (k : nat).

Lemma take_is_Some {A} (a : list A) ids :
  is_Some (np_take a ids) <-> Forall (fun i => is_Some (py_index (length a) i)) ids.
Proof.
  unfold np_take. rewrite mapM_is_Some. apply Forall_proper; [|done].
  intros i. simpl. destruct (py_index (length a) i) as [k|] eqn:Hk; simpl.
  - split; [eauto|]. intros _. apply lookup_lt_is_Some. by eapply py_index_lt.
  - split; by intros [? ?].
Qed.

Lemma put_twice {A V} (f : V -> A -> A) (a : list A) ids vals :
  (forall v w x, f v (f w x) = f v x) ->
  put f (put f a ids vals) ids vals = put f a ids vals.
Proof.
  intros Hf. apply list_eq. intros k.
  rewrite (put_lookup f Hf (put f a ids vals)), length_put, (put_lookup f Hf a).
  destruct (last_put _ _ k) as [v|]; [|done].
  destruct (a !! k); simpl; [|done]. by rewrite Hf.
Qed.



(** [X9] A hand-in that is applied a second time is accepted again: the task
    array ends as after the first time, but the counters move twice. *)
Theorem repeated_handin_counts_twice r info now r1 now' :
  mark_complete r info now = (r1, Ret tt) ->
  let status := map uint8 (Handin.status info) in
  let nc := count_where (fun s => s =? STATUS_COMPLETE) status in
  let nf := count_where (fun s => s =? STATUS_FAILED) status in
  let n := Z.of_nat (length (Handin.taskIDs info)) in
  exists r2,
    mark_complete r1 info now' = (r2, Ret tt) /\
    _task_info r2 = _task_info r1 /\
    nCompleted r1 = nCompleted r + nc /\ nCompleted r2 = nCompleted r + 2 * nc /\
    nFailed r1 = nFailed r + nf /\ nFailed r2 = nFailed r + 2 * nf /\
    nAssigned r1 = nAssigned r - n /\ nAssigned r2 = nAssigned r - 2 * n.
Proof.
  intros H. cbn zeta. unfold mark_complete in H.
  destruct (np_take _ _) as [l|] eqn:Htake; [|done].
  destruct (broadcast _ _) as [vals|] eqn:Hb; [|done].
  injection H as <-.
  unfold mark_complete.
  cbn [_task_info set_expiry set_nAssigned set_nFailed set_nCompleted set_task_info].
  destruct (np_take (put _ _ _ _) _) as [l'|] eqn:Htake'.
  2:{ exfalso.
      assert (is_Some (np_take (_task_info r) (Handin.taskIDs info))) as Hs by eauto.
      apply take_is_Some in Hs.
      assert (is_Some (np_take (put TaskInfo.set_status (_task_info r)
                                    (Handin.taskIDs info) vals) (Handin.taskIDs info)))
        as [? Hs'] by (apply take_is_Some; by rewrite length_put).
      congruence. }
  rewrite Hb. eexists. split; [reflexivity|]. simpl.
  rewrite put_twice by apply set_status_overwrites.
  repeat split; lia.
Qed.

End HandinMore.

(** ** Sweeps and the life of a rule *)

Section SweepMore.
Import IntegerIDRule.
Implicit Types (r : Rule) (now : Z) (k : nat) (o : op) (ops : list op).

Lemma count_where_zero {A} (p : A -> bool) (l : list A) x :
  count_where p l = 0 -> In x l -> p x = false.
Proof.
  intros H Hx. apply list_elem_of_In, list_elem_of_lookup in Hx as [k Hk].
  destruct (p x) eqn:E; [|done].
  pose proof (count_where_pos p l k x Hk E). lia.
Qed.

Lemma swept_row_not_timed_out r now y :
  In y (_task_info (poll_timeouts r now)) -> timed_out now y = false.
Proof.
  intros Hy. apply list_elem_of_In, list_elem_of_lookup in Hy as [k Hk].
  rewrite poll_timeouts_row in Hk.
  destruct (_task_info r !! k) as [x|] eqn:Hx; [|done].
  injection Hk as Hk.
  destruct (Z.gtb_spec (count_where (timed_out now) (_task_info r)) 0) as [E|E].
  - assert (timed_out now (requeue now x) = false) as Hrq.
    { unfold requeue. destruct (timed_out now x) eqn:Ht; [|done].
      unfold timed_out. reflexivity. }
    destruct (TaskInfo.nRetries (requeue now x) >? _n_retries r); subst y; [|done].
    unfold timed_out. reflexivity.
  - subst y. apply (count_where_zero (timed_out now) (_task_info r)).
    + pose proof (count_where_nonneg (timed_out now) (_task_info r)). lia.
    + apply list_elem_of_In, list_elem_of_lookup. eauto.
Qed.

(** [X11] A second sweep at the same instant changes nothing: the first one has
    left no Assigned task with a lease that has run out. *)
Theorem sweep_twice_is_sweep_once r now :
  poll_timeouts (poll_timeouts r now) now = poll_timeouts r now.
Proof.
  assert (count_where (timed_out now) (_task_info (poll_timeouts r now)) = 0) as H0.
  { apply count_where_none. apply swept_row_not_timed_out. }
  unfold poll_timeouts at 1. rewrite H0. reflexivity.
Qed.

(** [X12] When a sweep finds a lease that has run out, it marks Failed every row
    whose retry count exceeds [_n_retries], whatever the status of the row
    (a Complete one too), and it never counts the tasks it fails:
    [nFailed] and [nCompleted] stay as they were. *)
Theorem sweep_fails_every_exhausted_row r now k y :
  0 < count_where (timed_out now) (_task_info r) ->
  _task_info (poll_timeouts r now) !! k = Some y ->
  TaskInfo.nRetries y > _n_retries r ->
  TaskInfo.status y = STATUS_FAILED /\
  nFailed (poll_timeouts r now) = nFailed r /\
  nCompleted (poll_timeouts r now) = nCompleted r.
Proof.
  intros Hn Hy Hret. split.
  - rewrite poll_timeouts_row in Hy.
    destruct (_task_info r !! k) as [x|]; [|done]. simpl in Hy.
    assert ((count_where (timed_out now) (_task_info r) >? 0) = true) as E by lia.
    rewrite E in Hy. injection Hy as <-.
    destruct (TaskInfo.nRetries (requeue now x) >? _n_retries r) eqn:E'; [done|].
    lia.
  - unfold poll_timeouts. by destruct (_ >? 0).
Qed.

(** *** Invariants over any sequence of operations *)

Lemma step_active r o : _active r = false -> _active (step r o) = false.
Proof.
  intros H. destruct o; simpl; try done.
  - unfold make_range_available. by case_match.
  - unfold mark_datasource_complete. repeat (case_match; simpl; try done).
  - by rewrite bid_inactive.
  - by rewrite mark_complete_active.
  - by rewrite advert_active.
  - unfold poll_timeouts. by case_match.
Qed.

Lemma run_active r ops : _active r = false -> _active (run r ops) = false.
Proof.
  revert r. induction ops as [|o ops IH]; intros r H; [done|].
  apply IH. by apply step_active.
Qed.

(** [X13] No operation on a rule reactivates it: after [inactivate], through any
    later operations, the rule advertises nothing and every bid on it is
    answered with no task. *)
Theorem inactive_rule_stays_inactive r ops b now :
  let r' := run (inactivate r) ops in
  _active r' = false /\
  advert r' = (r', Ret None) /\
  bid r' b now = (r', Ret (Award.mk (Bid.ruleID b) [] "")).
Proof.
  cbn zeta. assert (_active (run (inactivate r) ops) = false) as H
    by (by apply run_active).
  split; [done|]. split; [|by apply bid_inactive].
  unfold advert. by rewrite H.
Qed.

(** [X14] Inactivation silences nothing else: a hand-in, a sweep, a release and
    the sealing of the data source act on an inactive rule as on an active
    one. *)
Theorem inactive_rule_still_settles r info now start end_ n_max :
  mark_complete (inactivate r) info now =
    (inactivate (mark_complete r info now).1, (mark_complete r info now).2) /\
  poll_timeouts (inactivate r) now = inactivate (poll_timeouts r now) /\
  make_range_available (inactivate r) start end_ now =
    (inactivate (make_range_available r start end_ now).1,
     (make_range_available r start end_ now).2) /\
  mark_datasource_complete (inactivate r) n_max =
    (inactivate (mark_datasource_complete r n_max).1,
     (mark_datasource_complete r n_max).2).
Proof.
  repeat split.
  - unfold mark_complete. cbn [inactivate set_active _task_info].
    destruct (np_take _ _); [|done]. by destruct (broadcast _ _).
  - unfold poll_timeouts. cbn [inactivate set_active _task_info].
    by destruct (_ >? 0).
  - unfold make_range_available, size. cbn [inactivate set_active _task_info].
    by destruct (_ || _).
  - unfold mark_datasource_complete, size, _update_nums.
    cbn [inactivate set_active _task_info set_nAvailable set_nAssigned nAssigned].
    destruct (_ >? n_max); [done|]. by destruct (n_max >? _).
Qed.

Lemma step_completed r o : nCompleted r <= nCompleted (step r o).
Proof.
  destruct o; simpl.
  - unfold make_range_available. case_match; simpl; lia.
  - unfold mark_datasource_complete. repeat (case_match; simpl; try lia).
  - unfold bid. repeat (case_match; simpl; try lia).
  - unfold mark_complete. repeat (case_match; simpl; try lia).
    pose proof (count_where_nonneg (fun s => s =? STATUS_COMPLETE)
                  (map uint8 (Handin.status info))). lia.
  - unfold advert. repeat (case_match; simpl; try lia).
  - lia.
  - unfold poll_timeouts. case_match; simpl; lia.
Qed.

Lemma step_sealed r o :
  seals o = false ->
  _datasource_complete (step r o) = _datasource_complete r /\
  _n_max (step r o) = _n_max r.
Proof.
  destruct o; simpl; try done; intros _.
  - unfold make_range_available. by case_match.
  - unfold bid. repeat (case_match; simpl; try done).
  - unfold mark_complete. repeat (case_match; simpl; try done).
  - unfold advert. repeat (case_match; simpl; try done).
  - unfold poll_timeouts. by case_match.
Qed.

(** [X15] A finished rule stays finished through any operations that do not seal
    the data source anew: [nCompleted] never goes down, and only
    [mark_datasource_complete] moves the task bound. *)
Theorem finished_rule_stays_finished r ops :
  finished r = true ->
  forallb (fun o => negb (seals o)) ops = true ->
  finished (run r ops) = true.
Proof.
  revert r. induction ops as [|o ops IH]; intros r Hf Hops; [done|].
  simpl in Hops. apply andb_true_iff in Hops as [Ho Hops].
  apply negb_true_iff in Ho. apply IH; [|done].
  unfold finished in *. apply andb_true_iff in Hf as [Hd Hn].
  destruct (step_sealed r o Ho) as [-> ->]. rewrite Hd. simpl.
  pose proof (step_completed r o). lia.
Qed.
End SweepMore.

(** ** The server: batches, the sweep and the registry *)

Section ServerMore.
Import RuleServer.
Implicit Types (s : RuleServer.t) (d : OrderedDict.t Rule) (now : Z).

Lemma set_same {V} (d : OrderedDict.t V) k v :
  OrderedDict.get d k = Some v -> OrderedDict.set d k v = d.
Proof.
  induction d as [|[k0 v0] d IH]; simpl; [done|].
  destruct (String.eqb k0 k) eqn:E.
  - by intros [= ->].
  - intros H. by rewrite IH.
Qed.

Lemma keys_set {V} (d : OrderedDict.t V) k v :
  is_Some (OrderedDict.get d k) ->
  OrderedDict.keys (OrderedDict.set d k v) = OrderedDict.keys d.
Proof.
  induction d as [|[k0 v0] d IH]; simpl; [by intros [? ?]|].
  destruct (String.eqb k0 k) eqn:E; simpl; [done|].
  intros H. f_equal. by apply IH.
Qed.

Lemma get_set_ne {V} (d : OrderedDict.t V) k k' v :
  k' <> k -> OrderedDict.get (OrderedDict.set d k v) k' = OrderedDict.get d k'.
Proof.
  intros Hne. rewrite get_set. destruct (String.eqb k k') eqn:E; [|done].
  apply String.eqb_eq in E. congruence.
Qed.

Lemma set_rules_same s : set_rules s (_rules s) = s.
Proof. by destruct s. Qed.

Lemma bid_loop_app s pre post now s1 awards :
  bid_loop s pre now = (s1, Ret awards) ->
  bid_loop s (pre ++ post) now =
    match bid_loop s1 post now with
    | (s2, Ret more) => (s2, Ret (awards ++ more))
    | (s2, Exc e) => (s2, Exc e)
    end.
Proof.
  revert s awards. induction pre as [|b pre IH]; intros s awards; simpl.
  - intros [= <- <-]. by destruct (bid_loop s post now) as [s2 [more|e]].
  - destruct (OrderedDict.get (_rules s) (Bid.ruleID b)) as [rule|]; [|done].
    destruct (IntegerIDRule.bid rule b now) as [rule' [award|e]]; [|done].
    destruct (bid_loop _ pre now) as [s' [aws|e]] eqn:Hpre; [|done].
    intros [= <- <-]. rewrite (IH _ _ Hpre).
    by destruct (bid_loop s' post now) as [s2 [more|e]].
Qed.

Lemma bid_loop_unknown s pre now s1 res id :
  bid_loop s pre now = (s1, res) ->
  OrderedDict.get (_rules s) id = None ->
  OrderedDict.get (_rules s1) id = None.
Proof.
  revert s res. induction pre as [|b pre IH]; intros s res; simpl.
  - by intros [= <- _].
  - destruct (OrderedDict.get (_rules s) (Bid.ruleID b)) as [rule|] eqn:Hb;
      [|by intros [= <- _]].
    destruct (IntegerIDRule.bid rule b now) as [rule' [award|e]].
    + destruct (bid_loop _ pre now) as [s' res'] eqn:Hpre.
      intros Hres Hid.
      assert (s' = s1) as <- by (destruct res'; by injection Hres).
      eapply IH; [exact Hpre|]. simpl.
      apply get_set_None; [done | by rewrite Hb].
    + intros [= <- _] Hid. simpl. apply get_set_None; [done | by rewrite Hb].
Qed.

(** [X16] A bid that names an unknown rule makes [bid_on_tasks] raise
    [KeyError], unlike [handin]: the bids before it have been placed and
    their tasks stay Assigned, but their awards are never returned; the
    bids after it are not placed. *)
Theorem bid_on_tasks_raises_at_unknown_rule s pre bad post now s1 awards :
  bid_on_tasks s pre now = (s1, Ret awards) ->
  OrderedDict.get (_rules s) (Bid.ruleID bad) = None ->
  bid_on_tasks s (pre ++ bad :: post) now =
    (s1, Exc (KeyError (repr (Bid.ruleID bad)))).
Proof.
  unfold bid_on_tasks. intros Hpre Hbad.
  rewrite (bid_loop_app _ _ _ _ _ _ Hpre). simpl.
  by rewrite (bid_loop_unknown _ _ _ _ _ _ Hpre Hbad).
Qed.


(** *** One turn of the sweep *)

(** [X18] A rule that the sweep finds expired and not finished is removed from
    the registry and nothing else happens: its [on_completion] rule, if
    any, is not started and the rule counter stays. *)
Theorem expired_rule_is_dropped retries s qn now uuid r :
  OrderedDict.get (_rules s) qn = Some r ->
  IntegerIDRule.finished (IntegerIDRule.poll_timeouts r now) = false ->
  IntegerIDRule.expired (IntegerIDRule.poll_timeouts r now) now = true ->
  poll_rule retries s qn now uuid =
    (set_rules s (OrderedDict.remove (_rules s) qn), Ret tt).
Proof.
  intros Hr Hfin Hexp. unfold poll_rule. rewrite Hr, Hfin, Hexp.
  cbn [_rules set_rules]. by rewrite remove_set.
Qed.

(** [X19] A rule is never removed as expired while one of its tasks is Available
    or Assigned, however old the rule is, as long as its counters agree
    with its task array: the sweep only polls its timeouts. *)
Theorem rule_with_open_tasks_is_kept retries s qn now uuid r k :
  OrderedDict.get (_rules s) qn = Some r ->
  let r' := IntegerIDRule.poll_timeouts r now in
  counters_agree r' = true ->
  status_is r' k STATUS_AVAILABLE || status_is r' k STATUS_ASSIGNED = true ->
  IntegerIDRule.finished r' = false ->
  IntegerIDRule.expired r' now = false /\
  poll_rule retries s qn now uuid =
    (set_rules s (OrderedDict.set (_rules s) qn r'), Ret tt).
Proof.
  intros Hr r' Hag Hopen Hfin.
  assert (IntegerIDRule.expired r' now = false) as Hexp.
  { apply counters_agree_spec in Hag as (Hav & Has & _).
    unfold IntegerIDRule.expired, status_is in *.
    destruct (IntegerIDRule._task_info r' !! k) as [x|] eqn:Hx; [|done].
    apply orb_true_iff in Hopen as [H|H].
    - pose proof (count_where_pos _ _ _ _ Hx H).
      assert ((IntegerIDRule.nAvailable r' =? 0) = false) as -> by lia. done.
    - pose proof (count_where_pos _ _ _ _ Hx H).
      assert ((IntegerIDRule.nAssigned r' =? 0) = false) as -> by lia.
      by rewrite andb_false_r. }
  split; [done|]. unfold poll_rule. rewrite Hr. fold r'. by rewrite Hfin, Hexp.
Qed.

(** [X20] A finished rule whose [on_completion] dictionary has no template, or
    a negative [max_tasks], is lost: the sweep has removed the rule when
    the follow-on raises ([KeyError] or [ValueError]), and no rule is
    registered in its place. *)
Theorem broken_follow_on_loses_rule retries s qn now uuid r follow_on :
  OrderedDict.get (_rules s) qn = Some r ->
  IntegerIDRule.finished (IntegerIDRule.poll_timeouts r now) = true ->
  IntegerIDRule.on_completion r = Some follow_on ->
  fo_template follow_on = None \/ default 1 (fo_max_tasks follow_on) < 0 ->
  poll_rule retries s qn now uuid =
    (set_rules s (OrderedDict.remove (_rules s) qn),
     Exc (match fo_template follow_on with
          | None => KeyError (repr "template")
          | Some _ => ValueError
          end)).
Proof.
  intros Hr Hfin Hoc Hbad. unfold poll_rule.
  rewrite Hr, Hfin, poll_timeouts_on_completion, Hoc.
  cbn [_rules set_rules _rule_n]. rewrite remove_set.
  destruct (fo_template follow_on) as [tpl|]; [|done].
  destruct Hbad as [|Hneg]; [done|].
  unfold IntegerIDRule.init.
  assert ((default 1 (fo_max_tasks follow_on) <? 0) = true) as -> by lia. done.
Qed.

(** *** The advertisement cache *)

(** [X21] The list of advertisements built at time [now] is served unchanged
    until [now + 1], whatever has happened to the rules in between. *)
Theorem advertisements_are_cached_for_a_second s now s1 x rules' t :
  _cached_advert_expiry s < now ->
  task_advertisements s now = (s1, Ret x) ->
  t <= now + 1 ->
  task_advertisements (set_rules s1 rules') t = (set_rules s1 rules', Ret x).
Proof.
  intros Hexp Hread Ht. unfold task_advertisements in Hread.
  assert ((now >? _cached_advert_expiry s) = true) as E by lia.
  rewrite E in Hread.
  destruct (collect_adverts (_rules s) 0) as [rules [adverts|e]]; [|done].
  injection Hread as <- <-. unfold task_advertisements. simpl.
  assert ((t >? now + 1) = false) as -> by lia. done.
Qed.
End ServerMore.

(** ** The server: registering and addressing rules *)

Section RegistryMore.
Import RuleServer.
Implicit Types (s : RuleServer.t) (d : OrderedDict.t Rule) (now : Z).


(** [X23] A successful [add_integer_id_rule] registers a fresh rule under the
    given id, or under the id made from the rule counter and a uuid, and
    advances the counter; the other rules are untouched.  The new rule has
    [max_tasks] tasks, of which exactly those in the release range are
    Available, its counters agree with its task array, it is active and
    its data source counts as complete. *)
Theorem add_registers_rule retries s max_tasks release ruleID timeout body now uuid :
  0 <= max_tasks ->
  match release with
  | Some (a, b) => 0 <= a <= max_tasks /\ 0 <= b <= max_tasks
  | None => True
  end ->
  let id := default (fmt_06d (_rule_n s) ++ "-" ++ uuid)%string ruleID in
  exists rule,
    add_integer_id_rule retries s max_tasks release ruleID timeout body now uuid =
      (mk (OrderedDict.set (_rules s) id rule) (_cached_advert s)
          (_cached_advert_expiry s) (_rule_n s + 1), Ret id) /\
    (forall k', k' <> id ->
       OrderedDict.get (OrderedDict.set (_rules s) id rule) k' =
       OrderedDict.get (_rules s) k') /\
    OrderedDict.get (OrderedDict.set (_rules s) id rule) id = Some rule /\
    IntegerIDRule.ruleID rule = id /\
    IntegerIDRule._template rule = RuleInfo.template body /\
    IntegerIDRule.size rule = max_tasks /\
    (forall k, status_is rule k STATUS_AVAILABLE =
               match release with
               | Some (a, b) => (a <=? Z.of_nat k) && (Z.of_nat k <? b)
               | None => false
               end) /\
    counters_agree rule = true /\
    IntegerIDRule._active rule = true /\
    IntegerIDRule.finished rule = (max_tasks =? 0).
Proof.
  intros Hmax Hrel id.
  unfold add_integer_id_rule. fold id.
  destruct (IntegerIDRule.init retries id (RuleInfo.template body)
              (RuleInfo.inputsByTask body) max_tasks 600 timeout
              (RuleInfo.on_completion body) true now) as [rule0|e] eqn:Hinit.
  2:{ unfold IntegerIDRule.init in Hinit.
      assert ((max_tasks <? 0) = false) as E by lia. by rewrite E in Hinit. }
  assert (Hag0 := init_counters_agree _ _ _ _ _ _ _ _ _ _ _ Hinit).
  unfold IntegerIDRule.init in Hinit.
  assert ((max_tasks <? 0) = false) as E by lia. rewrite E in Hinit.
  injection Hinit as <-.
  set (rule0 := IntegerIDRule.mk _ _ _ _ _ _ _ _ _ _ _ _ _ _ _ _ _ _ _) in *.
  assert (IntegerIDRule.size rule0 = max_tasks) as Hsize.
  { unfold IntegerIDRule.size, rule0, np_zeros. simpl.
    rewrite length_replicate. lia. }
  destruct release as [[a b]|].
  - assert ((a <? 0) || (a >? IntegerIDRule.size rule0) || (b <? 0)
            || (b >? IntegerIDRule.size rule0) = false) as Hok by (rewrite Hsize; lia).
    assert (Hag := make_range_available_agrees rule0 a b now).
    unfold IntegerIDRule.make_range_available in *. rewrite Hok in *.
    eexists. split; [reflexivity|].
    split; [intros k' Hk'; by apply get_set_ne|].
    split; [by rewrite get_set, String.eqb_refl|].
    split; [done|]. split; [done|].
    split.
    { unfold IntegerIDRule.size. simpl. unfold IntegerIDRule.put_slice_status.
      rewrite length_imap. exact Hsize. }
    split.
    { intros k. unfold status_is. simpl. rewrite put_slice_status_lookup.
      unfold np_zeros.
      destruct (decide (k < Z.to_nat max_tasks)%nat) as [Hk|Hk].
      - rewrite lookup_replicate_2 by done. simpl.
        by destruct ((a <=? Z.of_nat k) && (Z.of_nat k <? b)).
      - assert (replicate (Z.to_nat max_tasks) TaskInfo.zero !! k = None) as ->
          by (apply lookup_replicate_None; lia).
        simpl. lia. }
    split.
    { apply Hag; [|done]. simpl. apply forallb_forall. intros y Hy.
      apply list_elem_of_In, list_elem_of_lookup in Hy as [k Hk].
      rewrite list_lookup_imap in Hk. unfold np_zeros in Hk.
      destruct (replicate _ _ !! k) as [x|] eqn:Hx; [|done].
      apply lookup_replicate in Hx as [-> _]. simpl in Hk. injection Hk as <-.
      unfold finished_in_range. by rewrite andb_false_r. }
    split; [done|].
    unfold IntegerIDRule.finished. simpl. lia.
  - eexists. split; [reflexivity|].
    split; [intros k' Hk'; by apply get_set_ne|].
    split; [by rewrite get_set, String.eqb_refl|].
    split; [done|]. split; [done|]. split; [done|].
    split.
    { intros k. unfold status_is, rule0, np_zeros. simpl.
      destruct (replicate _ _ !! k) as [x|] eqn:Hx; [|done].
      by apply lookup_replicate in Hx as [-> _]. }
    split; [done|]. split; [done|].
    unfold IntegerIDRule.finished. simpl. lia.
Qed.

Lemma with_rule_frame {A} s id (method : Rule -> Rule * result A) s' res :
  with_rule s id method = (s', res) ->
  OrderedDict.keys (_rules s') = OrderedDict.keys (_rules s) /\
  (forall k, k <> id -> OrderedDict.get (_rules s') k = OrderedDict.get (_rules s) k) /\
  _rule_n s' = _rule_n s /\
  _cached_advert s' = _cached_advert s /\
  (OrderedDict.get (_rules s) id = None -> s' = s /\ res = Exc (KeyError (repr id))).
Proof.
  unfold with_rule.
  destruct (OrderedDict.get (_rules s) id) as [rule|] eqn:Hr.
  - destruct (method rule) as [rule' res']. intros [= <- <-]. simpl.
    split; [apply keys_set; by rewrite Hr|].
    split; [intros k Hk; by apply get_set_ne|]. done.
  - by intros [= <- <-].
Qed.

(** [X24] The endpoints that address one rule, [release_rule_tasks],
    [inactivate_rule] and [mark_datasource_complete], leave every other
    rule, the order of the registry, the rule counter and the cached
    list of advertisements as they are; for an unknown rule they raise
    [KeyError] and change nothing. *)
Theorem rule_endpoints_touch_one_rule s id start end_ n_max now s' res :
  release_rule_tasks s id start end_ now = (s', res) \/
  inactivate_rule s id = (s', res) \/
  mark_datasource_complete s id n_max = (s', res) ->
  OrderedDict.keys (_rules s') = OrderedDict.keys (_rules s) /\
  (forall k, k <> id -> OrderedDict.get (_rules s') k = OrderedDict.get (_rules s) k) /\
  _rule_n s' = _rule_n s /\
  _cached_advert s' = _cached_advert s /\
  (OrderedDict.get (_rules s) id = None -> s' = s /\ res = Exc (KeyError (repr id))).
Proof.
  intros [H|[H|H]]; eapply with_rule_frame; exact H.
Qed.

(** [X25] Once [inactivate_rule] has answered for a rule, every bid on that rule
    is answered with an award of no tasks and an empty template, and
    changes nothing. *)
Theorem inactivated_rule_grants_nothing s id r b now :
  OrderedDict.get (_rules s) id = Some r ->
  Bid.ruleID b = id ->
  exists s1,
    inactivate_rule s id = (s1, Ret tt) /\
    bid_on_tasks s1 [b] now = (s1, Ret [Award.mk id [] ""]).
Proof.
  intros Hr Hb. unfold inactivate_rule, with_rule. rewrite Hr.
  eexists. split; [reflexivity|].
  unfold bid_on_tasks, bid_loop. cbn [_rules set_rules]. rewrite Hb.
  rewrite get_set, String.eqb_refl.
  rewrite bid_inactive by done. rewrite Hb.
  rewrite (set_same (OrderedDict.set (_rules s) id (IntegerIDRule.inactivate r)) id
                    (IntegerIDRule.inactivate r))
    by (by rewrite get_set, String.eqb_refl).
  done.
Qed.
End RegistryMore.

(** ** The sweep over all rules, and the status of the rules *)

Section PassMore.
Import RuleServer.
Implicit Types (s : RuleServer.t) (d : OrderedDict.t Rule) (now : Z).

Lemma get_fresh {V} (d : OrderedDict.t V) k :
  k ∉ OrderedDict.keys d -> OrderedDict.get d k = None.
Proof.
  induction d as [|[k0 v0] d IH]; simpl; [done|].
  intros Hk. apply not_elem_of_cons in Hk as [Hne Hk].
  destruct (String.eqb k0 k) eqn:E; [|by apply IH].
  apply String.eqb_eq in E. congruence.
Qed.

Lemma get_app_fresh {V} (d1 d2 : OrderedDict.t V) k :
  OrderedDict.get d1 k = None ->
  OrderedDict.get (d1 ++ d2) k = OrderedDict.get d2 k.
Proof.
  induction d1 as [|[k0 v0] d1 IH]; simpl; [done|].
  destruct (String.eqb k0 k); [done|]. apply IH.
Qed.

Lemma set_app_fresh {V} (d1 d2 : OrderedDict.t V) k v :
  OrderedDict.get d1 k = None ->
  OrderedDict.set (d1 ++ d2 ) k v = d1 ++ OrderedDict.set d2 k v.
Proof.
  induction d1 as [|[k0 v0] d1 IH]; simpl; [done|].
  destruct (String.eqb k0 k); [done|]. intros H. by rewrite IH.
Qed.

Lemma poll_keys_quiet retries s now todo : forall seen uuids,
  NoDup (OrderedDict.keys (seen ++ todo)) ->
  forallb (stays now) todo = true ->
  poll_keys retries (set_rules s (seen ++ todo)) (OrderedDict.keys todo) now uuids =
    (set_rules s (seen ++ map (polled now) todo), Ret tt).
Proof.
  induction todo as [|[k r] todo IH]; intros seen uuids Hnd Hst; simpl; [done|].
  simpl in Hst. apply andb_true_iff in Hst as [Hk Hst].
  unfold stays in Hk. simpl in Hk. apply andb_true_iff in Hk as [Hfin Hexp].
  apply negb_true_iff in Hfin, Hexp.
  assert (OrderedDict.get seen k = None) as Hfresh.
  { apply get_fresh. unfold OrderedDict.keys in *. rewrite map_app in Hnd.
    apply NoDup_app in Hnd as (_ & Hdis & _). intros Hin.
    apply (Hdis k Hin). simpl. by left. }
  unfold poll_rule. cbn [_rules set_rules].
  rewrite get_app_fresh by done. simpl. rewrite String.eqb_refl.
  rewrite Hfin, Hexp. rewrite set_app_fresh by done. simpl. rewrite String.eqb_refl.
  specialize (IH (seen ++ [(k, IntegerIDRule.poll_timeouts r now)])
                 (fun n => uuids (S n))).
  rewrite <- !app_assoc in IH. simpl in IH. unfold polled at 2. simpl.
  apply IH; [|done].
  unfold OrderedDict.keys in *. rewrite map_app in *. done.
Qed.

(** [X26] One pass of the sweep over a registry none of whose rules is finished
    or expired after its timeouts are polled: every rule is polled once,
    in the order of the registry, no rule is removed or added, and the
    pass does not raise. *)
Theorem quiet_sweep_polls_every_rule retries s now uuids :
  bool_decide (NoDup (OrderedDict.keys (_rules s))) = true ->
  forallb (stays now) (_rules s) = true ->
  _poll_rules_pass retries s now uuids =
    (set_rules s (map (polled now) (_rules s)), Ret tt).
Proof.
  intros Hnd Hst. apply bool_decide_eq_true in Hnd.
  unfold _poll_rules_pass.
  rewrite <- (set_rules_same s) at 1.
  apply (poll_keys_quiet retries s now (_rules s) [] uuids); done.
Qed.

Lemma omap_ext_in {A B} (f g : A -> option B) (l : list A) :
  (forall x, x ∈ l -> f x = g x) -> omap f l = omap g l.
Proof.
  induction l as [|x l IH]; intros H; [done|].
  change (omap f (x :: l)) with (match f x with Some y => y :: omap f l | None => omap f l end).
  change (omap g (x :: l)) with (match g x with Some y => y :: omap g l | None => omap g l end).
  rewrite (H x) by left. rewrite IH; [done|]. intros y Hy. apply H. by right.
Qed.

Lemma status_entries d :
  NoDup (OrderedDict.keys d) ->
  omap (fun qn => r ← OrderedDict.get d qn; Some (qn, RuleStatus.info r))
       (OrderedDict.keys d) =
  map (fun kr => (kr.1, RuleStatus.info kr.2)) d.
Proof.
  induction d as [|[k r] d IH]; [done|].
  intros Hnd. apply NoDup_cons in Hnd as [Hk Hnd].
  change (OrderedDict.keys ((k, r) :: d)) with (k :: OrderedDict.keys d).
  change (map (fun kr => (kr.1, RuleStatus.info kr.2)) ((k, r) :: d))
    with ((k, RuleStatus.info r) :: map (fun kr => (kr.1, RuleStatus.info kr.2)) d).
  rewrite <- (IH Hnd).
  set (f := fun qn => r0 ← OrderedDict.get ((k, r) :: d) qn; Some (qn, RuleStatus.info r0)).
  change (omap f (k :: OrderedDict.keys d))
    with (match f k with Some y => y :: omap f (OrderedDict.keys d)
                       | None => omap f (OrderedDict.keys d) end).
  assert (f k = Some (k, RuleStatus.info r)) as ->
    by (unfold f; simpl; by rewrite String.eqb_refl).
  f_equal. apply omap_ext_in. intros q Hq. unfold f. simpl.
  destruct (String.eqb k q) eqn:E; [|done].
  apply String.eqb_eq in E. subst q. by destruct Hk.
Qed.

(** [X27] [get_queues] after the status cache has run out reports every rule of
    the registry once, in its order, with the counters of the rule; the
    answer is then served unchanged for [_cached_info_timeout] seconds,
    whatever happens to the rules. *)
Theorem status_is_cached_for_timeout d c now c1 x d' t :
  bool_decide (NoDup (OrderedDict.keys d)) = true ->
  StatusCache._cached_info_expiry c < now ->
  StatusCache.get_queues d c now = (c1, x) ->
  t <= now + StatusCache._cached_info_timeout c ->
  x = Some (map (fun kr => (kr.1, RuleStatus.info kr.2)) d) /\
  StatusCache.get_queues d' c1 t = (c1, x).
Proof.
  intros Hnd Hexp Hget Ht. apply bool_decide_eq_true in Hnd.
  unfold StatusCache.get_queues in Hget.
  assert ((now >? StatusCache._cached_info_expiry c) = true) as E by lia.
  rewrite E in Hget. injection Hget as <- <-. simpl.
  split; [by rewrite status_entries|].
  unfold StatusCache.get_queues. simpl.
  assert ((t >? now + StatusCache._cached_info_timeout c) = false) as -> by lia.
  done.
Qed.
End PassMore.

(** ** Releasing a task again *)

Section ReleaseMore.
Import IntegerIDRule.
Implicit Types (r : Rule) (i now : Z) (k : nat).

End ReleaseMore.

(** ** The further theorems at concrete inputs *)


Lemma repeated_bid_wins_nothing_witness :
  granted_ids (IntegerIDRule.bid once_granted first_bid 2).2 = [].
Proof.
  assert (IntegerIDRule.bid two_released first_bid 1 =
          (once_granted, Ret (Award.mk "rule" [0] "{{taskID}}"))) as Hbid
    by (vm_compute; reflexivity).
  exact (repeated_bid_wins_nothing two_released first_bid 1 once_granted _ 2 Hbid).
Defined.

Lemma released_range_is_advertised_witness :
  exists r1 r2 a,
    IntegerIDRule.make_range_available (rule_with 3 2) 0 2 0 = (r1, Ret tt) /\
    IntegerIDRule.advert r1 = (r2, Ret (Some a)) /\
    In 1 (Advert.availableTaskIDs a).
Proof.
  assert (IntegerIDRule._active (rule_with 3 2) = true) as Hact by (vm_compute; reflexivity).
  assert (IntegerIDRule._inputs_by_task (rule_with 3 2) = None) as Hin
    by (vm_compute; reflexivity).
  assert (2 <= IntegerIDRule.size (rule_with 3 2)) as Hend by (vm_compute; discriminate).
  destruct (released_range_is_advertised (rule_with 3 2) 0 2 0 Hact Hin
              ltac:(lia) ltac:(lia) Hend)
    as (r1 & r2 & a & Hrel & Hadv & _ & _ & _ & Hids).
  exists r1, r2, a. split; [exact Hrel|]. split; [exact Hadv|].
  apply Hids. split; [vm_compute; split; [discriminate | reflexivity]|].
  left. lia.
Defined.

Lemma advert_read_twice_witness :
  IntegerIDRule.advert (IntegerIDRule.advert two_released).1 =
  ((IntegerIDRule.advert two_released).1, Ret (Some both_tasks)).
Proof.
  apply (advert_read_twice two_released (Some both_tasks)).
  vm_compute. reflexivity.
Defined.

Lemma advert_after_missing_input_witness :
  exists a,
    IntegerIDRule.advert (IntegerIDRule.advert rule_missing_input).1 =
      ((IntegerIDRule.advert rule_missing_input).1, Ret (Some a)) /\
    Advert.inputsByTask a = None /\
    Advert.availableTaskIDs a = [0; 1].
Proof.
  assert ((IntegerIDRule.advert rule_missing_input).2 = Exc (KeyError "1")) as Hraise
    by (vm_compute; reflexivity).
  destruct (advert_after_missing_input rule_missing_input _ Hraise)
    as (a & Hread & Hin & Hids).
  exists a. split; [exact Hread|]. split; [exact Hin|].
  rewrite Hids. vm_compute. reflexivity.
Defined.

Lemma handin_keeps_cached_advert_witness :
  (IntegerIDRule.advert
     (IntegerIDRule.mark_complete (IntegerIDRule.advert two_released).1
        (Handin.mk "rule" [0] [STATUS_COMPLETE]) 5).1).2 =
  Ret (Some both_tasks).
Proof.
  apply (handin_keeps_cached_advert two_released both_tasks).
  vm_compute. reflexivity.
Defined.


Lemma repeated_handin_counts_twice_witness :
  exists r2,
    IntegerIDRule.mark_complete
      (IntegerIDRule.mark_complete once_granted
         (Handin.mk "rule" [0] [STATUS_COMPLETE]) 2).1
      (Handin.mk "rule" [0] [STATUS_COMPLETE]) 3 = (r2, Ret tt) /\
    IntegerIDRule.nCompleted r2 = 2 /\
    IntegerIDRule.nAssigned r2 = -1.
Proof.
  assert (IntegerIDRule.mark_complete once_granted
            (Handin.mk "rule" [0] [STATUS_COMPLETE]) 2 =
          ((IntegerIDRule.mark_complete once_granted
              (Handin.mk "rule" [0] [STATUS_COMPLETE]) 2).1, Ret tt)) as Hfirst
    by (vm_compute; reflexivity).
  destruct (repeated_handin_counts_twice once_granted
              (Handin.mk "rule" [0] [STATUS_COMPLETE]) 2 _ 3 Hfirst)
    as (r2 & Hsecond & _ & _ & Hc & _ & _ & _ & Ha).
  exists r2. split; [exact Hsecond|]. split.
  - rewrite Hc. vm_compute. reflexivity.
  - rewrite Ha. vm_compute. reflexivity.
Defined.


Lemma sweep_fails_every_exhausted_row_witness :
  TaskInfo.status (TaskInfo.mk STATUS_FAILED 1 601 1) = STATUS_FAILED /\
  IntegerIDRule.nFailed (IntegerIDRule.poll_timeouts leased_once 1000) = 0.
Proof.
  assert (0 < count_where (IntegerIDRule.timed_out 1000)
                (IntegerIDRule._task_info leased_once)) as Hn
    by (vm_compute; reflexivity).
  assert (IntegerIDRule._task_info (IntegerIDRule.poll_timeouts leased_once 1000) !! 0%nat =
          Some (TaskInfo.mk STATUS_FAILED 1 601 1)) as Hrow
    by (vm_compute; reflexivity).
  assert (TaskInfo.nRetries (TaskInfo.mk STATUS_FAILED 1 601 1) >
          IntegerIDRule._n_retries leased_once) as Hret
    by (vm_compute; reflexivity).
  destruct (sweep_fails_every_exhausted_row leased_once 1000 0%nat _ Hn Hrow Hret)
    as (Hs & Hf & _).
  split; [exact Hs|]. rewrite Hf. vm_compute. reflexivity.
Defined.

Lemma finished_rule_stays_finished_witness :
  IntegerIDRule.finished (run finished_rule [PollTimeouts 10; ReadAdvert; Inactivate]) = true.
Proof.
  apply (finished_rule_stays_finished finished_rule [PollTimeouts 10; ReadAdvert; Inactivate]).
  - vm_compute. reflexivity.
  - vm_compute. reflexivity.
Defined.


Lemma bid_on_tasks_raises_at_unknown_rule_witness :
  RuleServer.bid_on_tasks two_rule_server
    ([Bid.mk "a" [0] [1]] ++ Bid.mk "gone" [0] [1] :: [Bid.mk "b" [0] [1]]) 1 =
  ((RuleServer.bid_on_tasks two_rule_server [Bid.mk "a" [0] [1]] 1).1,
   Exc (KeyError "'gone'")).
Proof.
  assert (RuleServer.bid_on_tasks two_rule_server [Bid.mk "a" [0] [1]] 1 =
          ((RuleServer.bid_on_tasks two_rule_server [Bid.mk "a" [0] [1]] 1).1,
           Ret [Award.mk "a" [0] "{{taskID}}"])) as Hpre
    by (vm_compute; reflexivity).
  assert (OrderedDict.get (RuleServer._rules two_rule_server)
            (Bid.ruleID (Bid.mk "gone" [0] [1])) = None) as Hbad
    by (vm_compute; reflexivity).
  exact (bid_on_tasks_raises_at_unknown_rule two_rule_server [Bid.mk "a" [0] [1]]
           (Bid.mk "gone" [0] [1]) [Bid.mk "b" [0] [1]] 1 _ _ Hpre Hbad).
Defined.


Lemma expired_rule_is_dropped_witness :
  RuleServer.poll_rule 3 idle_server "a" 4000 "cafe" = (RuleServer.mk [] None 0 1, Ret tt).
Proof.
  assert (OrderedDict.get (RuleServer._rules idle_server) "a" = Some (rule_with 3 1))
    as Hget by (vm_compute; reflexivity).
  assert (IntegerIDRule.finished (IntegerIDRule.poll_timeouts (rule_with 3 1) 4000) = false)
    as Hfin by (vm_compute; reflexivity).
  assert (IntegerIDRule.expired (IntegerIDRule.poll_timeouts (rule_with 3 1) 4000) 4000 = true)
    as Hexp by (vm_compute; reflexivity).
  rewrite (expired_rule_is_dropped 3 idle_server "a" 4000 "cafe" _ Hget Hfin Hexp).
  vm_compute. reflexivity.
Defined.

Lemma rule_with_open_tasks_is_kept_witness :
  IntegerIDRule.expired (IntegerIDRule.poll_timeouts two_released 5000) 5000 = false /\
  (RuleServer.poll_rule 3 two_rule_server "a" 5000 "cafe").2 = Ret tt.
Proof.
  assert (OrderedDict.get (RuleServer._rules two_rule_server) "a" = Some two_released)
    as Hget by (vm_compute; reflexivity).
  assert (counters_agree (IntegerIDRule.poll_timeouts two_released 5000) = true)
    as Hag by (vm_compute; reflexivity).
  assert (status_is (IntegerIDRule.poll_timeouts two_released 5000) 0 STATUS_AVAILABLE
          || status_is (IntegerIDRule.poll_timeouts two_released 5000) 0 STATUS_ASSIGNED
          = true) as Hopen by (vm_compute; reflexivity).
  assert (IntegerIDRule.finished (IntegerIDRule.poll_timeouts two_released 5000) = false)
    as Hfin by (vm_compute; reflexivity).
  destruct (rule_with_open_tasks_is_kept 3 two_rule_server "a" 5000 "cafe" two_released
              0%nat Hget Hag Hopen Hfin) as [Hexp Hpoll].
  split; [exact Hexp|]. rewrite Hpoll. reflexivity.
Defined.

Lemma broken_follow_on_loses_rule_witness :
  RuleServer.poll_rule 3 broken_server "a" 10 "cafe" =
  (RuleServer.mk [] None 0 1, Exc (KeyError "'template'")).
Proof.
  assert (OrderedDict.get (RuleServer._rules broken_server) "a" =
          Some rule_with_broken_stage) as Hget by (vm_compute; reflexivity).
  assert (IntegerIDRule.finished
            (IntegerIDRule.poll_timeouts rule_with_broken_stage 10) = true)
    as Hfin by (vm_compute; reflexivity).
  assert (IntegerIDRule.on_completion rule_with_broken_stage = Some broken_stage)
    as Hoc by (vm_compute; reflexivity).
  assert (fo_template broken_stage = None \/ default 1 (fo_max_tasks broken_stage) < 0)
    as Hbad by (left; reflexivity).
  rewrite (broken_follow_on_loses_rule 3 broken_server "a" 10 "cafe" _ _
             Hget Hfin Hoc Hbad).
  vm_compute. reflexivity.
Defined.

Lemma advertisements_are_cached_for_a_second_witness :
  RuleServer.task_advertisements
    (RuleServer.set_rules (RuleServer.task_advertisements two_rule_server 5).1 []) 6 =
  (RuleServer.set_rules (RuleServer.task_advertisements two_rule_server 5).1 [],
   Ret (Some [both_tasks; both_tasks])).
Proof.
  assert (RuleServer._cached_advert_expiry two_rule_server < 5) as Hexp by reflexivity.
  assert (RuleServer.task_advertisements two_rule_server 5 =
          ((RuleServer.task_advertisements two_rule_server 5).1,
           Ret (Some [both_tasks; both_tasks]))) as Hread
    by (vm_compute; reflexivity).
  assert (6 <= 5 + 1) as Ht by discriminate.
  exact (advertisements_are_cached_for_a_second two_rule_server 5 _ _ [] 6 Hexp Hread Ht).
Defined.


Lemma add_registers_rule_witness :
  exists rule,
    RuleServer.add_integer_id_rule 3 RuleServer.init 3 (Some (0, 2)) None 3600
      (RuleInfo.mk "{{taskID}}" None None) 0 "cafe" =
      (RuleServer.mk [("000000-cafe", rule)] None 0 1, Ret "000000-cafe") /\
    counters_agree rule = true /\
    status_is rule 1 STATUS_AVAILABLE = true /\
    status_is rule 2 STATUS_AVAILABLE = false.
Proof.
  assert (0 <= 3) as Hmax by discriminate.
  assert (0 <= 0 <= 3 /\ 0 <= 2 <= 3) as Hrel by (repeat split; discriminate).
  destruct (add_registers_rule 3 RuleServer.init 3 (Some (0, 2)) None 3600
              (RuleInfo.mk "{{taskID}}" None None) 0 "cafe" Hmax Hrel)
    as (rule & Hadd & _ & _ & _ & _ & _ & Hst & Hag & _).
  exists rule. split; [|split; [exact Hag|]].
  - rewrite Hadd. vm_compute. reflexivity.
  - split; rewrite Hst; reflexivity.
Defined.

Lemma rule_endpoints_touch_one_rule_witness :
  OrderedDict.get (RuleServer._rules (RuleServer.inactivate_rule two_rule_server "a").1) "b" =
  Some two_released.
Proof.
  assert (RuleServer.inactivate_rule two_rule_server "a" =
          ((RuleServer.inactivate_rule two_rule_server "a").1, Ret tt)) as Hcall
    by (vm_compute; reflexivity).
  destruct (rule_endpoints_touch_one_rule two_rule_server "a" 0 0 0 0 _ _
              (or_intror (or_introl Hcall))) as (_ & Hframe & _).
  rewrite (Hframe "b") by discriminate. vm_compute. reflexivity.
Defined.

Lemma inactivated_rule_grants_nothing_witness :
  exists s1,
    RuleServer.inactivate_rule two_rule_server "a" = (s1, Ret tt) /\
    RuleServer.bid_on_tasks s1 [Bid.mk "a" [0] [1]] 1 = (s1, Ret [Award.mk "a" [] ""]).
Proof.
  assert (OrderedDict.get (RuleServer._rules two_rule_server) "a" = Some two_released)
    as Hget by (vm_compute; reflexivity).
  exact (inactivated_rule_grants_nothing two_rule_server "a" two_released
           (Bid.mk "a" [0] [1]) 1 Hget eq_refl).
Defined.

Lemma quiet_sweep_polls_every_rule_witness :
  RuleServer._poll_rules_pass 3 two_rule_server 5 (fun _ => "cafe") =
  (RuleServer.set_rules two_rule_server
     (map (polled 5) (RuleServer._rules two_rule_server)), Ret tt).
Proof.
  apply (quiet_sweep_polls_every_rule 3 two_rule_server 5 (fun _ => "cafe")).
  - vm_compute. reflexivity.
  - vm_compute. reflexivity.
Defined.

Lemma status_is_cached_for_timeout_witness :
  StatusCache.get_queues []
    (StatusCache.get_queues (RuleServer._rules two_rule_server) StatusCache.init 1).1 6 =
  ((StatusCache.get_queues (RuleServer._rules two_rule_server) StatusCache.init 1).1,
   Some [("a", RuleStatus.info two_released); ("b", RuleStatus.info two_released)]).
Proof.
  assert (bool_decide (NoDup (OrderedDict.keys (RuleServer._rules two_rule_server))) = true)
    as Hnd by (vm_compute; reflexivity).
  assert (StatusCache._cached_info_expiry StatusCache.init < 1) as Hexp by reflexivity.
  assert (StatusCache.get_queues (RuleServer._rules two_rule_server) StatusCache.init 1 =
          ((StatusCache.get_queues (RuleServer._rules two_rule_server) StatusCache.init 1).1,
           Some [("a", RuleStatus.info two_released); ("b", RuleStatus.info two_released)]))
    as Hget by (vm_compute; reflexivity).
  assert (6 <= 1 + StatusCache._cached_info_timeout StatusCache.init) as Ht by discriminate.
  destruct (status_is_cached_for_timeout (RuleServer._rules two_rule_server)
              StatusCache.init 1 _ _ [] 6 Hnd Hexp Hget Ht) as [_ Hcached].
  exact Hcached.
Defined.
